(** * OutfitX: task dispatch, outfit encoder, task heads, embedding cache

    A shallow embedding of [src/models/outfit_x.py],
    [src/models/encoders/image_encoders/clip_image_encoder.py] and
    [src/trains/trainers/fill_in_the_blank_trainer.py].

    Python objects that are mutated or that may raise are modelled in a
    state-and-exception monad; tensors are nested lists that carry their
    shape; the numeric kernels of torch (scalar arithmetic, the random
    generator, the dropout kernel, the per-position function of a
    transformer encoder layer, the pairwise distance) are the fields of a
    type class, so every statement holds for all of them. *)

From stdpp Require Import gmap strings list fin_maps.
From Stdlib Require Import ZArith.

(** ** Python exceptions *)

(** The exception classes the modelled code can raise.  [KeyError] is what
    a failed [dict] subscript raises, [RuntimeError] what torch raises on
    a shape mismatch, [TypeError] what a call with the wrong arguments
    raises, [IndexError] what indexing or reducing an empty dimension
    raises.  [OtherError] carries the class name of an exception raised by
    a collaborator that is not part of the modelled files. *)
Inductive PyExc : Type :=
| KeyError (key : string)
| ValueError (msg : string)
| FileNotFoundError (msg : string)
| RuntimeError (msg : string)
| TypeError
| IndexError
| ZeroDivisionError
| OtherError (class_name : string).

(** [type(e).__name__] *)
Definition exc_class (e : PyExc) : string :=
  match e with
  | KeyError _ => "KeyError"
  | ValueError _ => "ValueError"
  | FileNotFoundError _ => "FileNotFoundError"
  | RuntimeError _ => "RuntimeError"
  | TypeError => "TypeError"
  | IndexError => "IndexError"
  | ZeroDivisionError => "ZeroDivisionError"
  | OtherError c => c
  end.

Inductive Exc (A : Type) : Type :=
| Ok (a : A)
| Raise (e : PyExc).
Arguments Ok {A} a.
Arguments Raise {A} e.

Definition raises {A} (r : Exc A) (cls : string) : Prop :=
  ∃ e, r = Raise e ∧ exc_class e = cls.

(** ** State and exceptions *)

(** A computation over a mutable object [S]: it returns a value or raises,
    and leaves the object in the state it had at that point (Python does
    not roll back on an exception). *)
Definition M (S A : Type) : Type := S → Exc A * S.

#[global] Instance M_ret {S} : MRet (M S) := λ A a s, (Ok a, s).
#[global] Instance M_bind {S} : MBind (M S) := λ A B k m s,
  match m s with
  | (Ok a, s') => k a s'
  | (Raise e, s') => (Raise e, s')
  end.

#[global] Instance M_fmap {S} : FMap (M S) := λ A B f m s,
  match m s with
  | (Ok a, s') => (Ok (f a), s')
  | (Raise e, s') => (Raise e, s')
  end.

Definition raise {S A} (e : PyExc) : M S A := λ s, (Raise e, s).
Definition get {S} : M S S := λ s, (Ok s, s).
Definition put {S} (s : S) : M S unit := λ _, (Ok tt, s).
Definition lift_exc {S A} (r : Exc A) : M S A := λ s, (r, s).

(** Run a computation on a component [get_ s] of a larger state. *)
Definition zoom {S T A} (get_ : S → T) (set_ : T → S → S) (m : M T A) : M S A :=
  λ s, let '(r, t) := m (get_ s) in (r, set_ t s).

(** ** Tensors *)

(** A tensor carries its shape, as a [torch.Tensor] does, next to its
    elements; an empty batch or an empty sequence still has a feature
    dimension.  [wf3] and [wf2] say that the elements fill the shape. *)
Record Tensor3 (A : Type) : Type := T3 {
  dimB3 : nat;
  dimL3 : nat;
  dimD3 : nat;
  data3 : list (list (list A))
}.
Arguments T3 {A} _ _ _ _.
Arguments dimB3 {A} _.
Arguments dimL3 {A} _.
Arguments dimD3 {A} _.
Arguments data3 {A} _.

Record Tensor2 (A : Type) : Type := T2 {
  dimB2 : nat;
  dimD2 : nat;
  data2 : list (list A)
}.
Arguments T2 {A} _ _ _.
Arguments dimB2 {A} _.
Arguments dimD2 {A} _.
Arguments data2 {A} _.

Definition shape3 {A} (t : Tensor3 A) : nat * nat * nat := (dimB3 t, dimL3 t, dimD3 t).
Definition shape2 {A} (t : Tensor2 A) : nat * nat := (dimB2 t, dimD2 t).

Definition wf2 {A} (t : Tensor2 A) : Prop :=
  length (data2 t) = dimB2 t ∧ Forall (λ v, length v = dimD2 t) (data2 t).

Definition wf3 {A} (t : Tensor3 A) : Prop :=
  length (data3 t) = dimB3 t ∧
  Forall (λ row, length row = dimL3 t ∧ Forall (λ v, length v = dimD3 t) row) (data3 t).

Section tensor_ops.
Context {A : Type}.

(** [v.unsqueeze(0).unsqueeze(0).expand(B, -1, -1)] for a vector [v] *)
Definition expand_B_1 (v : list A) (B : nat) : Tensor3 A :=
  T3 B 1 (length v) (replicate B [v]).

(** [v.unsqueeze(0).expand(B, -1)] for a vector [v] *)
Definition expand_B (v : list A) (B : nat) : Tensor2 A :=
  T2 B (length v) (replicate B v).

(** [torch.full((B, 1), x)]; [torch.zeros(B, 1, dtype=torch.bool)] is
    [full_B_1 B false] *)
Definition full_B_1 (B : nat) (x : A) : Tensor2 A :=
  T2 B 1 (replicate B [x]).

(** [torch.cat([a, b], dim=1)] on three-dimensional tensors: the other
    two dimensions have to agree *)
Definition cat3_dim1 (a b : Tensor3 A) : Exc (Tensor3 A) :=
  if decide (dimB3 a = dimB3 b ∧ dimD3 a = dimD3 b)
  then Ok (T3 (dimB3 a) (dimL3 a + dimL3 b) (dimD3 a)
              (zip_with app (data3 a) (data3 b)))
  else Raise (RuntimeError "Sizes of tensors must match except in dimension 1").

(** [torch.cat([a, b], dim=1)] on two-dimensional tensors ([dim=-1] is
    the same dimension) *)
Definition cat2_dim1 (a b : Tensor2 A) : Exc (Tensor2 A) :=
  if decide (dimB2 a = dimB2 b)
  then Ok (T2 (dimB2 a) (dimD2 a + dimD2 b)
              (zip_with app (data2 a) (data2 b)))
  else Raise (RuntimeError "Sizes of tensors must match except in dimension 1").

(** [t.unsqueeze(1)] *)
Definition unsqueeze1 (t : Tensor2 A) : Tensor3 A :=
  T3 (dimB2 t) 1 (dimD2 t) ((λ v, [v]) <$> data2 t).

(** [t[:, 0, :]] *)
Definition select_pos0 (t : Tensor3 A) : Exc (Tensor2 A) :=
  if decide (dimL3 t = 0)
  then Raise IndexError
  else Ok (T2 (dimB3 t) (dimD3 t) ((λ row, default [] (head row)) <$> data3 t)).

(** The states of one sequence that a row of a key padding mask marks
    real, with their positions: [mask[j] = True] marks key [j] as
    padding. *)
Fixpoint visible_from (j : nat) (x : list (list A)) (mask : list bool)
  : list (nat * list A) :=
  match x, mask with
  | v :: x', b :: mask' =>
      if b then visible_from (S j) x' mask'
      else (j, v) :: visible_from (S j) x' mask'
  | _, _ => []
  end.
End tensor_ops.

(** ** The torch kernels *)

(** What the modelled code takes from torch, as an interface.  [scalar]
    is the element type of a floating-point tensor.  [Generator] is the
    state of the default random generator; a module that draws from it in
    training mode leaves it at [gen_next].  [dropout_kernel p g x] is
    [F.dropout(x, p, training=True)] with the draws of [g].
    [encoder_layer_fn w noise b i q keys mask] is the state that one
    [nn.TransformerEncoderLayer] with parameters [w] computes at query
    position [i] of batch element [b] from the state [q] at that
    position, the states [keys] of all the positions of the sequence,
    padded ones included, and the row [mask] of the key padding mask for
    that sequence: torch hands the padded keys to the attention kernel
    too, with the score [-inf].  [noise] holds the generator state the
    layer's dropout draws from in training mode, and is [None] in
    evaluation mode.
    [cdist_p2 x y] is the Euclidean distance that [torch.cdist(_, _, p=2)]
    computes between two rows, [sltb] the comparison of two scalars. *)
Class Torch : Type := {
  scalar : Type;
  szero : scalar;
  sadd : scalar → scalar → scalar;
  smul : scalar → scalar → scalar;
  sltb : scalar → scalar → bool;
  cdist_p2 : list scalar → list scalar → scalar;
  Generator : Type;
  gen_next : Generator → Generator;
  dropout_kernel : scalar → Generator → list (list scalar) → list (list scalar);
  LayerParams : Type;
  encoder_layer_fn :
    LayerParams → option Generator → nat → nat →
    list scalar → list (list scalar) → list bool → list scalar
}.

(** The item encoder ([src/models/encoders], not among the modelled
    files) is taken as a parameter: its parameters, its [d_embed]
    property, and its call, which may draw from the generator and may
    raise.  It is called with positional [images, texts] by
    [precompute_embeddings] and with the keywords of [encoder_input_dict]
    by [_cp_forward]. *)
Class ItemEncoderSig `{Torch} : Type := {
  ItemEncoder : Type;
  Image : Type;
  Text : Type;
  EncoderInputDict : Type;
  ItemEncoderConfig : Type;
  ItemEncoder_init : ItemEncoderConfig → ItemEncoder;
  item_encoder_d_embed : ItemEncoder → nat;
  item_encoder_call_positional :
    ItemEncoder → bool → list (list Image) → list (list Text) →
    M Generator (Tensor3 scalar);
  item_encoder_call_keywords :
    ItemEncoder → bool → EncoderInputDict → M Generator (Tensor3 scalar)
}.

(** ** torch.nn modules *)

Section nn.
Context `{Torch}.

(** *** nn.Linear *)
Record Linear : Type := mkLinear {
  in_features : nat;
  out_features : nat;
  weight : list (list scalar);
  bias : option (list scalar)
}.

Definition dot (w x : list scalar) : scalar :=
  foldr sadd szero (zip_with smul w x).

(** One row of [x @ weight.T + bias] *)
Definition Linear_row (l : Linear) (x : list scalar) : list scalar :=
  match bias l with
  | Some b => zip_with (λ w bj, sadd (dot w x) bj) (weight l) b
  | None => (λ w, dot w x) <$> weight l
  end.

Definition Linear_forward (l : Linear) (x : Tensor2 scalar) : Exc (Tensor2 scalar) :=
  if decide (dimD2 x = in_features l)
  then Ok (T2 (dimB2 x) (out_features l) (Linear_row l <$> data2 x))
  else Raise (RuntimeError "mat1 and mat2 shapes cannot be multiplied").

(** *** nn.Dropout: the identity unless the module is in training mode *)
Definition Dropout_forward (p : scalar) (training : bool) (x : Tensor2 scalar)
  : M Generator (Tensor2 scalar) :=
  if training
  then g ← get;
       _ ← put (gen_next g);
       mret (T2 (dimB2 x) (dimD2 x) (dropout_kernel p g (data2 x)))
  else mret x.

(** *** nn.Sequential over the two kinds of module the model uses *)
Inductive Module : Type :=
| Dropout (p : scalar)
| LinearM (l : Linear).

Definition Module_forward (md : Module) (training : bool) (x : Tensor2 scalar)
  : M Generator (Tensor2 scalar) :=
  match md with
  | Dropout p => Dropout_forward p training x
  | LinearM l => lift_exc (Linear_forward l x)
  end.

Fixpoint Sequential_forward (mods : list Module) (training : bool) (x : Tensor2 scalar)
  : M Generator (Tensor2 scalar) :=
  match mods with
  | [] => mret x
  | md :: mods' =>
      y ← Module_forward md training x;
      Sequential_forward mods' training y
  end.

(** *** nn.TransformerEncoder, batch first, with a key padding mask *)

(** One layer on one sequence: every position, padded or not, is a
    query, and every position is handed to the layer as a key together
    with the mask row. *)
Definition encoder_layer_row (w : LayerParams) (noise : option Generator) (b : nat)
    (x : list (list scalar)) (mask : list bool) : list (list scalar) :=
  imap (λ i q, encoder_layer_fn w noise b i q x mask) x.

Definition encoder_layer (w : LayerParams) (noise : option Generator)
    (mask : list (list bool)) (x : list (list (list scalar)))
  : list (list (list scalar)) :=
  imap (λ b rm, encoder_layer_row w noise b rm.1 rm.2) (zip x mask).

(** [for mod in self.layers: output = mod(output, src_key_padding_mask=mask)] *)
Fixpoint encoder_layers (layers : list LayerParams) (training : bool)
    (mask : list (list bool)) (x : list (list (list scalar))) (g : Generator)
  : list (list (list scalar)) * Generator :=
  match layers with
  | [] => (x, g)
  | w :: layers' =>
      if training
      then encoder_layers layers' training mask (encoder_layer w (Some g) mask x) (gen_next g)
      else encoder_layers layers' training mask (encoder_layer w None mask x) g
  end.

Record TransformerEncoder : Type := mkTransformerEncoder {
  d_model : nat;
  layers : list LayerParams
}.

(** On an empty batch the attention of the first layer cannot reshape
    the mask it is given ([attn_mask.view(bsz, num_heads, -1, src_len)]
    with [bsz = 0]) and raises [RuntimeError]. *)
Definition TransformerEncoder_forward (enc : TransformerEncoder) (training : bool)
    (src : Tensor3 scalar) (src_key_padding_mask : Tensor2 bool)
  : M Generator (Tensor3 scalar) :=
  if decide (layers enc = [])
  then raise IndexError
  else if decide (dimD3 src = d_model enc)
  then if decide (shape2 src_key_padding_mask = (dimB3 src, dimL3 src))
    then if decide (dimB3 src = 0)
      then raise (RuntimeError "cannot reshape tensor of 0 elements into shape [0, num_heads, -1, src_len]")
      else g ← get;
           let '(out, g') := encoder_layers (layers enc) training
                               (data2 src_key_padding_mask) (data3 src) g in
           _ ← put g';
           mret (T3 (dimB3 src) (dimL3 src) (dimD3 src) out)
    else raise (OtherError "AssertionError")
  else raise (RuntimeError "the feature number of src must be equal to d_model").
End nn.

(** ** The model: [class OutfitX(nn.Module)] *)

(** The task classes of [src/models/datatypes]; [forward] is called with
    the class itself as [task], and any other object can be passed. *)
Inductive Task : Type :=
| OutfitCompatibilityPredictionTask
| OutfitComplementaryItemRetrievalTask
| OutfitFillInTheBlankTask
| OutfitPrecomputeEmbeddingTask
| OtherTask (name : string).

#[global] Instance Task_eq_dec : EqDecision Task.
Proof. solve_decision. Defined.

Definition Task_name (t : Task) : string :=
  match t with
  | OutfitCompatibilityPredictionTask => "OutfitCompatibilityPredictionTask"
  | OutfitComplementaryItemRetrievalTask => "OutfitComplementaryItemRetrievalTask"
  | OutfitFillInTheBlankTask => "OutfitFillInTheBlankTask"
  | OutfitPrecomputeEmbeddingTask => "OutfitPrecomputeEmbeddingTask"
  | OtherTask name => name
  end.

Definition Task_code (t : Task) : nat + string :=
  match t with
  | OutfitCompatibilityPredictionTask => inl 0
  | OutfitComplementaryItemRetrievalTask => inl 1
  | OutfitFillInTheBlankTask => inl 2
  | OutfitPrecomputeEmbeddingTask => inl 3
  | OtherTask name => inr name
  end.

Definition Task_of_code (c : nat + string) : Task :=
  match c with
  | inl 0 => OutfitCompatibilityPredictionTask
  | inl 1 => OutfitComplementaryItemRetrievalTask
  | inl 2 => OutfitFillInTheBlankTask
  | inl _ => OutfitPrecomputeEmbeddingTask
  | inr name => OtherTask name
  end.

#[global] Instance Task_countable : Countable Task.
Proof. apply (inj_countable' Task_code Task_of_code). by intros []. Defined.

Section OutfitX.
Context `{ItemEncoderSig}.

(** The fields of [OutfitXConfig] that [outfit_x.py] reads; the other
    options of [cfg.transformer] are part of [LayerParams], and
    [cfg.transformer.batch_first] is true, as the shapes that the source
    notes next to each step say. *)
Record OutfitXConfig : Type := mkOutfitXConfig {
  cfg_item_encoder : ItemEncoderConfig;
  cfg_transformer_dropout : scalar;
  cfg_transformer_n_layers : nat;
  cfg_d_embed : nat
}.

Record OutfitX : Type := mkOutfitX {
  cfg : OutfitXConfig;
  item_encoder : ItemEncoder;
  transformer_encoder : TransformerEncoder;
  outfit_token : list scalar;
  cp_ffn : list Module;
  cir_ffn : list Module;
  target_item_image_emb : list scalar;
  training : bool
}.

(** The values that the initialisers draw in [__init__]. *)
Record InitDraws : Type := mkInitDraws {
  draw_outfit_token : nat → scalar;
  draw_target_item_image_emb : nat → scalar;
  draw_cp_weight : nat → scalar;
  draw_cp_bias : scalar;
  draw_cir_weight : nat → nat → scalar;
  draw_encoder_layer : LayerParams
}.

(** [OutfitX.__init__]; [nn.TransformerEncoder] holds [num_layers]
    copies of the one encoder layer it is given, and a new module is in
    training mode. *)
Definition OutfitX_init (c : OutfitXConfig) (θ : InitDraws) : OutfitX :=
  let item_encoder := ItemEncoder_init (cfg_item_encoder c) in
  let d := item_encoder_d_embed item_encoder in
  {| cfg := c;
     item_encoder := item_encoder;
     transformer_encoder :=
       mkTransformerEncoder d
         (replicate (cfg_transformer_n_layers c) (draw_encoder_layer θ));
     outfit_token := draw_outfit_token θ <$> seq 0 d;
     cp_ffn :=
       [Dropout (cfg_transformer_dropout c);
        LinearM (mkLinear d 1 [draw_cp_weight θ <$> seq 0 d] (Some [draw_cp_bias θ]))];
     cir_ffn :=
       [LinearM (mkLinear d (cfg_d_embed c)
                   ((λ j, draw_cir_weight θ j <$> seq 0 d) <$> seq 0 (cfg_d_embed c))
                   None)];
     target_item_image_emb := draw_target_item_image_emb θ <$> seq 0 (Nat.div d 2);
     training := true |}.

(** The architecture that [__init__] sets up and that updates of the
    parameter values keep: the sizes of the parameters, a transformer
    with at least one layer, the two heads. *)
Definition OutfitX_wf (m : OutfitX) : Prop :=
  let d := item_encoder_d_embed (item_encoder m) in
  length (outfit_token m) = d ∧
  length (target_item_image_emb m) = Nat.div d 2 ∧
  d_model (transformer_encoder m) = d ∧
  layers (transformer_encoder m) ≠ [] ∧
  (∃ p w b, cp_ffn m = [Dropout p; LinearM (mkLinear d 1 [w] (Some [b]))] ∧
            length w = d) ∧
  (∃ W, cir_ffn m = [LinearM (mkLinear d (cfg_d_embed (cfg m)) W None)] ∧
        length W = cfg_d_embed (cfg m) ∧ Forall (λ r, length r = d) W).

(** What a call on the model can read and change: the module itself and
    the default random generator. *)
Record Runtime : Type := mkRuntime {
  self : OutfitX;
  generator : Generator
}.

Definition with_generator {A} (m : M Generator A) : M Runtime A :=
  zoom generator (λ g rt, mkRuntime (self rt) g) m.

(** [nn.Module.train(mode)]; [eval()] is [train(False)] *)
Definition train (mode : bool) : M Runtime unit := λ rt,
  let m := self rt in
  (Ok tt,
   mkRuntime
     (mkOutfitX (cfg m) (item_encoder m) (transformer_encoder m) (outfit_token m)
                (cp_ffn m) (cir_ffn m) (target_item_image_emb m) mode)
     (generator rt)).

Definition precompute_embeddings (images : list (list Image)) (texts : list (list Text))
  : M Runtime (Tensor2 scalar) :=
  rt ← get;
  embeddings ← with_generator
    (item_encoder_call_positional (item_encoder (self rt)) (training (self rt)) images texts);
  lift_exc (select_pos0 embeddings).

Definition _cp_forward (outfit_embedding : Tensor3 scalar) (outfit_mask : Tensor2 bool)
    (encoder_input_dict : option EncoderInputDict) : M Runtime (Tensor2 scalar) :=
  rt ← get;
  outfit_embedding ←
    match encoder_input_dict with
    | Some d => with_generator
        (item_encoder_call_keywords (item_encoder (self rt)) (training (self rt)) d)
    | None => mret outfit_embedding
    end;
  let B := dimB3 outfit_embedding in
  transformer_inputs ←
    lift_exc (cat3_dim1 (expand_B_1 (outfit_token (self rt)) B) outfit_embedding);
  mask ← lift_exc (cat2_dim1 (full_B_1 B false) outfit_mask);
  transformer_outputs ← with_generator
    (TransformerEncoder_forward (transformer_encoder (self rt)) (training (self rt))
       transformer_inputs mask);
  outfit_token_states ← lift_exc (select_pos0 transformer_outputs);
  with_generator (Sequential_forward (cp_ffn (self rt)) (training (self rt)) outfit_token_states).

Definition _cir_forward (outfit_embedding : Tensor3 scalar) (outfit_mask : Tensor2 bool)
    (target_item_text_embedding : Tensor2 scalar) : M Runtime (Tensor2 scalar) :=
  rt ← get;
  let B := dimB3 outfit_embedding in
  let target_items_image_embedding := expand_B (target_item_image_emb (self rt)) B in
  target_items_embedding ←
    lift_exc (cat2_dim1 target_items_image_embedding target_item_text_embedding);
  let target_items_embedding := unsqueeze1 target_items_embedding in
  embeddings ← lift_exc (cat3_dim1 target_items_embedding outfit_embedding);
  let prefix_mask := full_B_1 B false in
  mask ← lift_exc (cat2_dim1 prefix_mask outfit_mask);
  transformer_outputs ← with_generator
    (TransformerEncoder_forward (transformer_encoder (self rt)) (training (self rt))
       embeddings mask);
  target_item_token_states ← lift_exc (select_pos0 transformer_outputs);
  with_generator
    (Sequential_forward (cir_ffn (self rt)) (training (self rt)) target_item_token_states).

(** The [*args, **kwargs] of [forward], by the signature they fit. *)
Inductive TaskArgs : Type :=
| CPArgs (outfit_embedding : Tensor3 scalar) (outfit_mask : Tensor2 bool)
         (encoder_input_dict : option EncoderInputDict)
| CIRArgs (outfit_embedding : Tensor3 scalar) (outfit_mask : Tensor2 bool)
          (target_item_text_embedding : Tensor2 scalar)
| PrecomputeArgs (images : list (list Image)) (texts : list (list Text)).

Abbreviation Handler := (TaskArgs → M Runtime (Tensor2 scalar)).

(** The bound methods, called with [*args, **kwargs]: arguments that do
    not fit the signature raise [TypeError]. *)
Definition call_cp_forward : Handler := λ args,
  match args with
  | CPArgs e m d => _cp_forward e m d
  | _ => raise TypeError
  end.

Definition call_cir_forward : Handler := λ args,
  match args with
  | CIRArgs e m t => _cir_forward e m t
  | _ => raise TypeError
  end.

Definition call_precompute_embeddings : Handler := λ args,
  match args with
  | PrecomputeArgs i t => precompute_embeddings i t
  | _ => raise TypeError
  end.

(** [self.forward_], the dict literal of [__init__] *)
Definition forward_ : gmap Task Handler :=
  <[OutfitPrecomputeEmbeddingTask := call_precompute_embeddings]>
  (<[OutfitFillInTheBlankTask := call_cir_forward]>
  (<[OutfitComplementaryItemRetrievalTask := call_cir_forward]>
  (<[OutfitCompatibilityPredictionTask := call_cp_forward]> ∅))).

Definition forward (task : Task) (args : TaskArgs) : M Runtime (Tensor2 scalar) :=
  match forward_ !! task with
  | Some _forward => _forward args
  | None => raise (KeyError (Task_name task))
  end.
End OutfitX.

(** ** The image encoder: [class CLIPImageEncoder] *)

(** The pretrained processor and vision model of the [transformers]
    package, frozen and in evaluation mode. *)
Class CLIPSig `{Torch} : Type := {
  ImageInput : Type;
  BatchFeature : Type;
  CLIPImageProcessor_call : list ImageInput → gmap string string → Exc BatchFeature;
  CLIPVisionModelWithProjection_call : BatchFeature → Exc (Tensor2 scalar)
}.

Section CLIPImageEncoder.
Context `{CLIPSig}.

(** [CLIPImageEncoder._forward].  A [processor_kargs] that the caller
    passes is a dict object that the method writes to, so the dict is
    the state: [None] is the call without the argument, and the method
    then works on a dict of its own. *)
Definition CLIPImageEncoder_forward (images : list ImageInput)
  : M (option (gmap string string)) (Tensor2 scalar) :=
  processor_kargs ← get;
  let kargs := <["return_tensors" := "pt"]> (default ∅ processor_kargs) in
  _ ← (if processor_kargs is Some _ then put (Some kargs) else mret tt);
  transformed_images ← lift_exc (CLIPImageProcessor_call images kargs);
  image_embeddings ← lift_exc (CLIPVisionModelWithProjection_call transformed_images);
  mret image_embeddings.
End CLIPImageEncoder.

(** ** The evaluation: [class FillInTheBlankTrainer(DistributedTrainer)] *)

(** *** Files of the embedding cache *)

(** [name] matches the glob pattern [f"{prefix}*.pkl"] (for a [prefix]
    without pattern characters) *)
Definition ends_with (suffix s : string) : bool :=
  (String.length suffix <=? String.length s)%nat &&
  String.eqb (String.substring (String.length s - String.length suffix) (String.length suffix) s)
             suffix.

Definition glob_match (prefix name : string) : bool :=
  String.prefix prefix name &&
  ends_with ".pkl"
    (String.substring (String.length prefix) (String.length name - String.length prefix) name).

(** [sorted] on the paths of one directory: insertion into the order of
    the file names *)
Fixpoint insert_sorted (x : string) (l : list string) : list string :=
  match l with
  | [] => [x]
  | y :: l' => if String.leb x y then x :: l else y :: insert_sorted x l'
  end.

Definition sorted (l : list string) : list string := foldr insert_sorted [] l.

Section FillInTheBlankTrainer.
Context `{ItemEncoderSig}.

(** One pickled shard: [{'ids': [...], 'embeddings': ndarray}] *)
Record Shard : Type := mkShard {
  shard_ids : list Z;
  shard_embeddings : Tensor2 scalar
}.

(** The directory [cfg.precomputed_embedding_dir]: its entries, in the
    order the operating system lists them, and the files opened so far. *)
Record Directory : Type := mkDirectory {
  entries : list (string * Shard);
  opened : list string
}.

(** [embedding_dir.glob(pattern)] *)
Definition glob (prefix : string) : M Directory (list string) := λ d,
  (Ok (filter (λ name, glob_match prefix name = true) (entries d).*1), d).

(** The content of the file called [file]: the first entry of that name *)
Definition lookup_entry (es : list (string * Shard)) (file : string) : option Shard :=
  (λ e, e.2.2) <$> list_find (λ e, e.1 = file) es.

(** [with open(file, 'rb') as f: data = pickle.load(f)] *)
Definition open_and_load (file : string) : M Directory Shard := λ d,
  match lookup_entry (entries d) file with
  | Some data => (Ok data, mkDirectory (entries d) (opened d ++ [file]))
  | None => (Raise (FileNotFoundError file), d)
  end.

(** [np.concatenate(arrays, axis=0)] on two-dimensional arrays *)
Definition np_concatenate_axis0 (arrays : list (Tensor2 scalar)) : Exc (Tensor2 scalar) :=
  match arrays with
  | [] => Raise (ValueError "need at least one array to concatenate")
  | a0 :: _ =>
      if decide (Forall (λ a, dimD2 a = dimD2 a0) arrays)
      then Ok (T2 (sum_list (dimB2 <$> arrays)) (dimD2 a0) (concat (data2 <$> arrays)))
      else Raise (ValueError "all the input array dimensions except for the concatenation axis must match exactly")
  end.

(** [{k: v for k, v in pairs}]: a later pair replaces an earlier one with
    the same key *)
Definition dict_of_pairs (pairs : list (Z * list scalar)) : gmap Z (list scalar) :=
  foldl (λ d kv, <[kv.1 := kv.2]> d) ∅ pairs.

(** The [for file in files] loop of [load_embeddings] with its two
    accumulators *)
Fixpoint load_embeddings_loop (files : list string)
    (all_ids : list Z) (all_embeddings : list (Tensor2 scalar))
  : M Directory (list Z * list (Tensor2 scalar)) :=
  match files with
  | [] => mret (all_ids, all_embeddings)
  | file :: files' =>
      data ← open_and_load file;
      load_embeddings_loop files' (all_ids ++ shard_ids data)
                           (all_embeddings ++ [shard_embeddings data])
  end.

Definition load_embeddings (embed_file_prefix : string)
  : M Directory (gmap Z (list scalar)) :=
  let prefix := embed_file_prefix in
  files ← sorted <$> glob prefix;
  if decide (files = [])
  then raise (FileNotFoundError ("找不到任何文件: " +:+ prefix +:+ "*.pkl"))
  else
    '(all_ids, all_embeddings) ← load_embeddings_loop files [] [];
    all_embeddings ← lift_exc (np_concatenate_axis0 all_embeddings);
    mret (dict_of_pairs (zip all_ids (data2 all_embeddings))).
End FillInTheBlankTrainer.

(** *** Ranking the candidates *)

Section ranking.
Context `{Torch}.

(** Broadcasting of the batch dimension of two operands: equal sizes
    pair up, a size of one is repeated. *)
Definition broadcast_batch {X Y} (n1 n2 : nat) (l1 : list X) (l2 : list Y)
  : option (nat * list (X * Y)) :=
  if decide (n1 = n2) then Some (n1, zip l1 l2)
  else if decide (n1 = 1) then Some (n2, x ← take 1 l1; pair x <$> l2)
  else if decide (n2 = 1) then Some (n1, y ← take 1 l2; (λ x, (x, y)) <$> l1)
  else None.

(** [torch.cdist(x1, x2, p=2)] *)
Definition torch_cdist (x1 x2 : Tensor3 scalar) : Exc (Tensor3 scalar) :=
  if decide (dimD3 x1 = dimD3 x2)
  then match broadcast_batch (dimB3 x1) (dimB3 x2) (data3 x1) (data3 x2) with
       | Some (B, pairs) =>
           Ok (T3 B (dimL3 x1) (dimL3 x2)
                  ((λ rs : list (list scalar) * list (list scalar),
                     (λ p, cdist_p2 p <$> rs.2) <$> rs.1) <$> pairs))
       | None => Raise (RuntimeError "The size of tensor a must match the size of tensor b")
       end
  else Raise (RuntimeError "X1 and X2 must have the same number of columns").

(** [t.squeeze(1)] of a tensor whose dimension 1 has size one *)
Definition squeeze1 (t : Tensor3 scalar) : Tensor2 scalar :=
  T2 (dimB3 t) (dimD3 t) ((λ row, default [] (head row)) <$> data3 t).

(** The index of the first minimal element *)
Fixpoint argmin_from (best_i : nat) (best : scalar) (i : nat) (l : list scalar) : nat :=
  match l with
  | [] => best_i
  | d :: l' =>
      if sltb d best then argmin_from i d (S i) l'
      else argmin_from best_i best (S i) l'
  end.

Definition argmin_row (l : list scalar) : nat :=
  match l with
  | [] => 0
  | d :: l' => argmin_from 0 d 1 l'
  end.

(** [torch.argmin(t, dim=-1)] *)
Definition torch_argmin (t : Tensor2 scalar) : Exc (list nat) :=
  if decide (dimD2 t = 0) then Raise IndexError
  else Ok (argmin_row <$> data2 t).

(** [(a == b).sum().item()] on two index vectors *)
Definition count_equal (a b : list nat) : Exc nat :=
  match broadcast_batch (length a) (length b) a b with
  | Some (_, pairs) => Ok (length (filter (λ ab, ab.1 = ab.2) pairs))
  | None => Raise (RuntimeError "The size of tensor a must match the size of tensor b")
  end.

(** The candidate that [test] picks for each row of the batch *)
Definition y_hats_index_of (y_hats_embedding candidate_item_embeddings : Tensor3 scalar)
  : Exc (list nat) :=
  match torch_cdist y_hats_embedding candidate_item_embeddings with
  | Ok dists => torch_argmin (squeeze1 dists)
  | Raise e => Raise e
  end.
End ranking.

Section trainer.
Context `{ItemEncoderSig}.

(** One element of [self.test_dataloader]: the [task] and the other
    entries of [input_dict], the candidates and the index of the answer *)
Record Batch : Type := mkBatch {
  input_task : Task;
  input_args : TaskArgs;
  candidate_item_embedding : Tensor3 scalar;
  answer_index : list nat
}.

Record FillInTheBlankTrainer : Type := mkTrainer {
  run_mode : string;
  world_size : Z;
  device_type : option string;
  model_name : string;
  checkpoint_dir_parent : string;
  model : Runtime;
  test_dataloader : list Batch;
  precomputed_embedding_dir : Directory
}.

Definition set_device_type (dt : string) (tr : FillInTheBlankTrainer)
  : FillInTheBlankTrainer :=
  mkTrainer (run_mode tr) (world_size tr) (Some dt) (model_name tr)
            (checkpoint_dir_parent tr) (model tr) (test_dataloader tr)
            (precomputed_embedding_dir tr).

Definition set_model (rt : Runtime) (tr : FillInTheBlankTrainer)
  : FillInTheBlankTrainer :=
  mkTrainer (run_mode tr) (world_size tr) (device_type tr) (model_name tr)
            (checkpoint_dir_parent tr) rt (test_dataloader tr)
            (precomputed_embedding_dir tr).

(** The body of the [for step, batch_dict] loop of [test]: the number of
    rows and the number of hits of one batch *)
Definition test_step (batch_dict : Batch) : M Runtime (nat * nat) :=
  y_hats ← forward (input_task batch_dict) (input_args batch_dict);
  let y_hats_embedding := unsqueeze1 y_hats in
  let candidate_item_embeddings := candidate_item_embedding batch_dict in
  y_hats_index ← lift_exc (y_hats_index_of y_hats_embedding candidate_item_embeddings);
  let y_index := answer_index batch_dict in
  hits ← lift_exc (count_equal y_hats_index y_index);
  mret (length y_hats_index, hits).

End trainer.

(** What [FillInTheBlankTrainer] inherits from [DistributedTrainer]
    ([src/trains/trainers/distributed_trainer.py], not among the modelled
    files) and takes from the platform; [autocast_available] says for
    which device types other than ['cuda'] and ['cpu'] the installed
    torch has autocast. *)
Class DistributedTrainerSig `{ItemEncoderSig} : Type := {
  torch_cuda_is_available : bool;
  autocast_available : string → bool;
  load_checkpoint : string → bool → M FillInTheBlankTrainer unit;
  log : string → nat * nat → M FillInTheBlankTrainer unit
}.

Section trainer_methods.
Context `{DistributedTrainerSig}.

(** Entering [with autocast(device_type=self.device_type, ...)]: the
    constructor wants a string that names a device type with autocast,
    whether or not [enabled] is set.  [self.device_type] is [None] until
    [hook_after_setup] has stored ['cuda'] or ['cpu']. *)
Definition autocast_enter (device_type : option string) : Exc unit :=
  match device_type with
  | None => Raise (ValueError "Expected device_type of type str, got NoneType")
  | Some dt =>
      if String.eqb dt "cuda" || String.eqb dt "cpu" || autocast_available dt
      then Ok tt
      else Raise (RuntimeError "User specified an unsupported autocast device_type")
  end.

(** The [for step, batch_dict] loop of [test] with its two counters;
    the context manager is entered anew in every step. *)
Fixpoint test_loop (device_type : option string) (batches : list Batch)
    (total correct : nat) : M Runtime (nat * nat) :=
  match batches with
  | [] => mret (total, correct)
  | batch_dict :: batches' =>
      _ ← lift_exc (autocast_enter device_type);
      '(n, hits) ← test_step batch_dict;
      test_loop device_type batches' (total + n) (correct + hits)
  end.

(** [FillInTheBlankTrainer.test]; the accuracy [correct / total] is
    logged as the pair of its numerator and denominator. *)
Definition test : M FillInTheBlankTrainer unit :=
  _ ← zoom model set_model (train false);
  tr ← get;
  '(total, correct) ←
    zoom model set_model (test_loop (device_type tr) (test_dataloader tr) 0 0);
  if decide (total = 0) then raise ZeroDivisionError
  else log "info" (correct, total).

Definition hook_after_setup : M FillInTheBlankTrainer unit :=
  tr ← get;
  _ ← put (set_device_type (if torch_cuda_is_available then "cuda" else "cpu") tr);
  if bool_decide (1 < world_size tr)%Z && String.eqb (run_mode tr) "test"
  then raise (ValueError "测试模式下不支持分布式")
  else
    let ckpt_name_prefix := model_name tr in
    ckpt_path ←
      (if String.eqb (run_mode tr) "train-valid"
       then mret (checkpoint_dir_parent tr +:+ "/compatibility_prediction/" +:+
                  ckpt_name_prefix +:+ "_best_AUC.pth")
       else if String.eqb (run_mode tr) "test"
       then mret (checkpoint_dir_parent tr +:+ "/complementary_item_retrieval/" +:+
                  ckpt_name_prefix +:+ "_best_Recall@1.pth")
       else raise (ValueError "未知的运行模式"));
    load_checkpoint ckpt_path true.
End trainer_methods.

(** ** Vocabulary of the statements *)

Section vocabulary.
Context `{ItemEncoderSig}.

(** The outfit encoder as the specification describes it: run the
    attention stack on the sequence [src] under [mask], take the state
    at position 0 and hand it to the head. *)
Definition attend_and_pool (src : Tensor3 scalar) (mask : Tensor2 bool)
    (head : list Module) : M Runtime (Tensor2 scalar) :=
  rt ← get;
  out ← with_generator
    (TransformerEncoder_forward (transformer_encoder (self rt)) (training (self rt)) src mask);
  pooled ← lift_exc (select_pos0 out);
  with_generator (Sequential_forward head (training (self rt)) pooled).

(** Two sequences agree wherever the mask says "real item". *)
Definition rows_agree (mask : list bool) (r1 r2 : list (list scalar)) : Prop :=
  length r1 = length r2 ∧
  ∀ i, mask !! i = Some false → r1 !! i = r2 !! i.



(** The key padding mask, as far as it can be relied on.  [regular w q
    keys mask] stands for: the arithmetic of the layer with parameters
    [w], for the query [q] over the keys [keys] under [mask], stays
    finite (no overflow, no [inf], no [NaN]).  On such inputs a padded
    key has attention weight zero, and the state that the layer computes
    does not depend on what the padded keys hold.  Outside of them it
    does: the weight zero times a value that is not finite is [NaN]. *)
Definition masked_keys_weightless
    (regular : LayerParams → list scalar → list (list scalar) → list bool → Prop) : Prop :=
  ∀ w noise b i q keys keys' mask,
    regular w q keys mask → regular w q keys' mask →
    rows_agree mask keys keys' →
    encoder_layer_fn w noise b i q keys mask = encoder_layer_fn w noise b i q keys' mask.




(** [run] is the outcome of: running the attention stack of [rt] on
    [src] under [msk], and, if the stack returns, handing to [head] the
    tensor [pooled] of shape [B, D] whose row [b] is the state at
    position 0 of sequence [b] of what the stack returned. *)
Definition pools_position_0 (rt : Runtime) (src : Tensor3 scalar) (msk : Tensor2 bool)
    (head : list Module) (run : Exc (Tensor2 scalar) * Runtime) : Prop :=
  match TransformerEncoder_forward (transformer_encoder (self rt)) (training (self rt))
          src msk (generator rt) with
  | (Ok states, g') =>
      shape3 states = shape3 src ∧
      ∃ pooled,
        shape2 pooled = (dimB3 src, dimD3 src) ∧
        Forall2 (λ row state0, row !! 0 = Some state0) (data3 states) (data2 pooled) ∧
        run = with_generator (Sequential_forward head (training (self rt)) pooled)
                (mkRuntime (self rt) g')
  | (Raise e, g') => run = (Raise e, mkRuntime (self rt) g')
  end.

(** In evaluation mode the item encoder neither reads nor advances the
    random generator. *)
Definition item_encoder_eval_deterministic : Prop :=
  ∀ enc images texts g g',
    (item_encoder_call_positional enc false images texts g).2 = g ∧
    (item_encoder_call_positional enc false images texts g).1 =
    (item_encoder_call_positional enc false images texts g').1.

(** [sltb] is a strict order on the distances that occur. *)
Definition sltb_strict : Prop :=
  (∀ a, sltb a a = false) ∧
  (∀ a b c, sltb a b = true → sltb b c = true → sltb a c = true).
End vocabulary.

(** ** A small instance over the integers

    Exact integer arithmetic in place of floating point, a counter as
    random generator, and a transformer layer that adds to each state the
    scaled sum of the visible states.  The examples below run the
    definitions on it. *)

Module ZModel.
Definition Z_cdist_p2 (x y : list Z) : Z :=
  Z.sqrt (foldr Z.add 0%Z (zip_with (λ a b, (a - b) * (a - b))%Z x y)).

Definition Z_dropout_kernel (p : Z) (g : nat) (x : list (list Z)) : list (list Z) :=
  (λ row, imap (λ i v, if Nat.eqb ((i + g) mod 3) 0 then 0%Z else (2 * v)%Z) row) <$> x.

Definition Z_encoder_layer_fn (w : Z) (noise : option nat) (b i : nat)
    (q : list Z) (keys : list (list Z)) (mask : list bool) : list Z :=
  let attended := foldl (λ acc kv, zip_with Z.add acc (Z.mul w <$> kv.2)) q
                        (visible_from 0 keys mask) in
  match noise with
  | Some g => imap (λ k v, if Nat.even (k + i + g) then 0%Z else v) attended
  | None => attended
  end.

Definition ZTorch : Torch := {|
  scalar := Z;
  szero := 0%Z;
  sadd := Z.add;
  smul := Z.mul;
  sltb := Z.ltb;
  cdist_p2 := Z_cdist_p2;
  Generator := nat;
  gen_next := S;
  dropout_kernel := Z_dropout_kernel;
  LayerParams := Z;
  encoder_layer_fn := Z_encoder_layer_fn
|}.

(** An item encoder with [d_embed = 4]: the item with image [i] and text
    [t] is embedded as [[i; t; i + t; w]]. *)
Definition Z_encode (w : Z) (images texts : list (list Z)) : Tensor3 Z :=
  T3 (length images) (length (default [] (head images))) 4
     (zip_with (zip_with (λ i t, [i; t; (i + t)%Z; w])) images texts).

Definition Z_encoder_call (w : Z) (training : bool) (images texts : list (list Z))
  : M (@Generator ZTorch) (Tensor3 (@scalar ZTorch)) :=
  if decide (length images = length texts)
  then mret (Z_encode w images texts)
  else raise (ValueError "images and texts differ in length").

Definition ZItemEncoder : @ItemEncoderSig ZTorch := {|
  ItemEncoder := Z;
  Image := Z;
  Text := Z;
  EncoderInputDict := list (list Z) * list (list Z);
  ItemEncoderConfig := Z;
  ItemEncoder_init := λ c, c;
  item_encoder_d_embed := λ _, 4;
  item_encoder_call_positional := Z_encoder_call;
  item_encoder_call_keywords := λ w training d, Z_encoder_call w training d.1 d.2
|}.

Definition ZCLIP : @CLIPSig ZTorch := {|
  ImageInput := Z;
  BatchFeature := list Z;
  CLIPImageProcessor_call := λ images kargs,
    if decide (kargs !! "return_tensors" = Some "pt")
    then Ok images else Raise TypeError;
  CLIPVisionModelWithProjection_call := λ pixels,
    Ok (T2 (length pixels) 2 ((λ p, [p; (p * p)%Z]) <$> pixels))
|}.

Definition ZDistributedTrainer : @DistributedTrainerSig ZTorch ZItemEncoder := {|
  torch_cuda_is_available := false;
  autocast_available := λ _, false;
  load_checkpoint := λ path only_load_model tr, (Ok tt, tr);
  log := λ level metrics tr, (Ok tt, tr)
|}.

Definition config (d_out : nat) : @OutfitXConfig ZTorch ZItemEncoder :=
  @mkOutfitXConfig ZTorch ZItemEncoder 1%Z 0%Z 2 d_out.

Definition draws : @InitDraws ZTorch :=
  @mkInitDraws ZTorch (λ i, Z.of_nat i) (λ i, (Z.of_nat i + 5)%Z) (λ i, (Z.of_nat i + 1)%Z) 3%Z
              (λ j i, Z.of_nat (j + i)) 2%Z.

(** The model as [__init__] builds it (in training mode), and after
    [eval()] *)
Definition model_train : @Runtime ZTorch ZItemEncoder :=
  @mkRuntime ZTorch ZItemEncoder (OutfitX_init (config 4) draws) 7.

Definition model_eval : @Runtime ZTorch ZItemEncoder :=
  (train false model_train).2.

(** An outfit of two items, none of them padding, and one of three
    slots whose last is padding *)
Definition outfit2 : Tensor3 Z := T3 1 2 4 [[[1; 2; 3; 4]; [5; 6; 7; 8]]]%Z.
Definition mask2 : Tensor2 bool := T2 1 2 [[false; false]].
Definition outfit3 (pad : list Z) : Tensor3 Z :=
  T3 1 3 4 [[[1; 2; 3; 4]; [5; 6; 7; 8]; pad]]%Z.
Definition text1 : Tensor2 Z := T2 1 2 [[9; 10]]%Z.

(** An outfit of eight items *)
Definition outfit8 : Tensor3 Z :=
  T3 1 8 4 [(λ i, [i; i + 1; i + 2; i + 3]%Z) <$> [1; 2; 3; 4; 5; 6; 7; 8]%Z].
Definition mask8 : Tensor2 bool := T2 1 8 [replicate 8 false].

(** A model whose [cfg.d_embed] is 2 while the item encoder embeds
    into dimension 4 *)
Definition model_narrow : @Runtime ZTorch ZItemEncoder :=
  @mkRuntime ZTorch ZItemEncoder (OutfitX_init (config 2) draws) 7.

(** Pooled states of a batch of two *)
Definition states2 : Tensor2 Z := T2 2 4 [[1; 0; 2; 0]; [0; 1; 0; 3]]%Z.

(** Two predictions with three candidates each *)
Definition y_hats2 : Tensor2 Z := T2 2 2 [[0; 0]; [5; 5]]%Z.
Definition candidates2 : Tensor3 Z :=
  T3 2 3 2 [[[3; 4]; [1; 0]; [6; 8]]; [[0; 0]; [9; 9]; [5; 6]]]%Z.

(** A cache directory with two shards and a file that is no shard, and
    a directory without shards *)
Definition shard0 : @Shard ZTorch := @mkShard ZTorch [11; 12]%Z (T2 2 2 [[1; 2]; [3; 4]]%Z).
Definition shard1 : @Shard ZTorch := @mkShard ZTorch [13]%Z (T2 1 2 [[5; 6]]%Z).

Definition cache_dir : @Directory ZTorch :=
  @mkDirectory ZTorch [("m_embedding_subset_1.pkl", shard1); ("notes.txt", shard0);
               ("m_embedding_subset_0.pkl", shard0)] [].

Definition empty_cache_dir : @Directory ZTorch :=
  @mkDirectory ZTorch [("notes.txt", shard0)] [].

(** A trainer that is asked to evaluate on two workers *)
Definition trainer_two_workers : @FillInTheBlankTrainer ZTorch ZItemEncoder :=
  @mkTrainer ZTorch ZItemEncoder "test" 2%Z None "all-MiniLM-L6-v2" "checkpoints" model_train [] cache_dir.
End ZModel.

(** ** An instance with a value that is not a number

    The integers and one more value, [None], that every operation passes
    on, as floating point does with [NaN]; a layer that adds to each
    state the weighted sum of all the keys, a padded key with the weight
    zero.  Zero times [None] is [None]: on this instance what a padded
    slot holds can reach the other positions. *)

Module NaNModel.
Definition F_add (a b : option Z) : option Z :=
  match a, b with
  | Some x, Some y => Some (x + y)%Z
  | _, _ => None
  end.

Definition F_mul (a b : option Z) : option Z :=
  match a, b with
  | Some x, Some y => Some (x * y)%Z
  | _, _ => None
  end.

Definition F_ltb (a b : option Z) : bool :=
  match a, b with
  | Some x, Some y => Z.ltb x y
  | _, _ => false
  end.

Definition F_cdist_p2 (x y : list (option Z)) : option Z :=
  Z.sqrt <$> foldr F_add (Some 0%Z)
    (zip_with (λ a b, let d := F_add a (F_mul (Some (-1)%Z) b) in F_mul d d) x y).

Definition F_dropout_kernel (p : option Z) (g : nat) (x : list (list (option Z)))
  : list (list (option Z)) :=
  (λ row, imap (λ i v, if Nat.eqb ((i + g) mod 3) 0 then Some 0%Z
                       else F_mul (Some 2%Z) v) row) <$> x.

Definition F_encoder_layer_fn (w : Z) (noise : option nat) (b i : nat)
    (q : list (option Z)) (keys : list (list (option Z))) (mask : list bool)
  : list (option Z) :=
  foldl (λ acc km, zip_with F_add acc
                     (F_mul (Some (if km.2 : bool then 0 else w)%Z) <$> km.1))
        q (zip keys mask).

Definition FTorch : Torch := {|
  scalar := option Z;
  szero := Some 0%Z;
  sadd := F_add;
  smul := F_mul;
  sltb := F_ltb;
  cdist_p2 := F_cdist_p2;
  Generator := nat;
  gen_next := S;
  dropout_kernel := F_dropout_kernel;
  LayerParams := Z;
  encoder_layer_fn := F_encoder_layer_fn
|}.
End NaNModel.

(** ** Vocabulary of the further statements *)

Section further_vocabulary.
Context `{ItemEncoderSig}.

(** A computation that leaves the module (its parameters and its mode)
    as it found it, whether it returns or raises. *)
Definition keeps_self {A} (m : M Runtime A) : Prop :=
  ∀ rt, self (m rt).2 = self rt.

(** A file name prefix that [Path.glob] takes literally: none of the
    pattern characters and no path separator in it. *)
Definition pattern_characters : list string := ["*"; "?"; "["; "/"].

Definition literal_prefix (prefix : string) : Prop :=
  Forall (λ c, String.index 0 c prefix = None) pattern_characters.

(** The names are in ascending order, each next to the following one. *)
Fixpoint ascending (l : list string) : Prop :=
  match l with
  | x :: (y :: _) as l' => String.leb x y = true ∧ ascending l'
  | _ => True
  end.
End further_vocabulary.

(** ** Further inputs for the integer instance *)

Module ZExtra.
Import ZModel.

(** An item encoder with an odd [d_embed] *)
Definition ZItemEncoder5 : @ItemEncoderSig ZTorch := {|
  ItemEncoder := Z;
  Image := Z;
  Text := Z;
  EncoderInputDict := list (list Z) * list (list Z);
  ItemEncoderConfig := Z;
  ItemEncoder_init := λ c, c;
  item_encoder_d_embed := λ _, 5;
  item_encoder_call_positional := Z_encoder_call;
  item_encoder_call_keywords := λ w training d, Z_encoder_call w training d.1 d.2
|}.

Definition model_odd : @Runtime ZTorch ZItemEncoder5 :=
  @mkRuntime ZTorch ZItemEncoder5
    (OutfitX_init (@mkOutfitXConfig ZTorch ZItemEncoder5 1%Z 0%Z 2 5) draws) 7.

Definition outfit_odd : Tensor3 Z := T3 1 1 5 [[[1; 2; 3; 4; 5]]]%Z.
Definition mask_odd : Tensor2 bool := T2 1 1 [[false]].

(** An outfit whose feature dimension is not the model's, a mask and a
    text embedding for a batch of two *)
Definition outfit_wide : Tensor3 Z := T3 1 1 6 [[[1; 2; 3; 4; 5; 6]]]%Z.
Definition mask_two_rows : Tensor2 bool := T2 2 2 [[false; false]; [false; true]].
Definition text_two_rows : Tensor2 Z := T2 2 2 [[9; 10]; [11; 12]]%Z.

(** Encoder output with two positions per sequence, and with none *)
Definition pairs_images : list (list Z) := [[1; 2]; [3; 4]]%Z.
Definition pairs_texts : list (list Z) := [[5; 6]; [7; 8]]%Z.
Definition no_images : list (list Z) := [[]; []].

(** A batch of one fill-in-the-blank question with three candidates *)
Definition question : @Batch ZTorch ZItemEncoder :=
  @mkBatch ZTorch ZItemEncoder OutfitFillInTheBlankTask
    (@CIRArgs ZTorch ZItemEncoder outfit2 mask2 text1)
    (T3 1 3 4 [[[0; 0; 0; 0]; [348; 504; 660; 816]; [1; 1; 1; 1]]]%Z) [1].

Definition trainer_of (mode : string) (world : Z) (batches : list Batch)
  : @FillInTheBlankTrainer ZTorch ZItemEncoder :=
  @mkTrainer ZTorch ZItemEncoder mode world None "all-MiniLM-L6-v2" "checkpoints"
    model_train batches cache_dir.

(** Candidates of another width, for another number of questions, and none
    at all *)
Definition candidates_wide : Tensor3 Z := T3 2 1 3 [[[1; 2; 3]]; [[4; 5; 6]]]%Z.
Definition candidates_three : Tensor3 Z := T3 3 1 2 [[[0; 0]]; [[1; 1]]; [[2; 2]]]%Z.
Definition candidates_none : Tensor3 Z := T3 2 0 2 [[]; []].
End ZExtra.

(** * Properties *)

(** ** The monad *)

Section monad_facts.
Context {S : Type}.

Lemma bind_ret_l {A B} (a : A) (k : A → M S B) (s : S) :
  (mret a ≫= k) s = k a s.
Proof. reflexivity. Qed.

Lemma bind_lift_exc_ok {A B} (a : A) (k : A → M S B) (s : S) :
  (lift_exc (Ok a) ≫= k) s = k a s.
Proof. reflexivity. Qed.


Lemma bind_get {B} (k : S → M S B) (s : S) :
  (get ≫= k) s = k s s.
Proof. reflexivity. Qed.

Lemma bind_run {A B} (m : M S A) (k : A → M S B) (s : S) :
  (m ≫= k) s =
  match m s with
  | (Ok a, s') => k a s'
  | (Raise e, s') => (Raise e, s')
  end.
Proof. reflexivity. Qed.
End monad_facts.

Lemma raises_class {A} (e : PyExc) (cls : string) :
  raises (Raise e : Exc A) cls ↔ exc_class e = cls.
Proof.
  split.
  - intros (e' & Heq & Hcls). by injection Heq as ->.
  - intros Hcls. by exists e.
Qed.

(** ** Task dispatch *)

Section dispatch.
Context `{ItemEncoderSig}.

Lemma forward__registered (task : Task) :
  is_Some (forward_ !! task) ↔
  task ∈ [OutfitCompatibilityPredictionTask; OutfitComplementaryItemRetrievalTask;
          OutfitFillInTheBlankTask; OutfitPrecomputeEmbeddingTask].
Proof.
  unfold forward_. rewrite !lookup_insert_is_Some, lookup_empty, is_Some_alt.
  rewrite !elem_of_cons, elem_of_nil. intuition congruence.
Qed.

Lemma forward__other (name : string) : forward_ !! OtherTask name = None.
Proof.
  apply eq_None_not_Some. rewrite forward__registered.
  rewrite !elem_of_cons, elem_of_nil. intuition congruence.
Qed.

(** C1 (as amended): for every task tag that [forward_] has no handler
    for, [forward] raises the [KeyError] of the failed dict lookup, and
    the module (all its parameters, its mode) and the random generator
    are what they were before the call. *)
Theorem forward_unregistered_task_KeyError
    (task : Task) (args : TaskArgs) (rt : Runtime) :
  forward_ !! task = None →
  forward task args rt = (Raise (KeyError (Task_name task)), rt).
Proof.
  intros Hmiss. unfold forward. by rewrite Hmiss.
Qed.
End dispatch.

(** ** Shapes *)

Section shapes.
Context {A : Type}.

Lemma zip_with_app_replicate_singleton (n : nat) (x : A) (l : list (list A)) :
  length l ≤ n → zip_with app (replicate n [x]) l = cons x <$> l.
Proof. intros Hle. by rewrite zip_with_replicate_l. Qed.

Lemma wf2_cons_column (B D : nat) (x : A) (t : Tensor2 A) :
  shape2 t = (B, D) → wf2 t → wf2 (T2 B (1 + D) (cons x <$> data2 t)).
Proof.
  intros [= HB HD] [Hlen Hrows]. split; simpl.
  - by rewrite length_fmap, Hlen.
  - apply Forall_fmap. eapply Forall_impl; [exact Hrows|].
    intros v Hv. simpl. by rewrite Hv, HD.
Qed.

Lemma wf3_zip_with_cons (B L D : nat) (pool : list (list A)) (t : Tensor3 A) :
  shape3 t = (B, L, D) → wf3 t →
  length pool = B → Forall (λ v, length v = D) pool →
  wf3 (T3 B (1 + L) D (zip_with cons pool (data3 t))).
Proof.
  intros [= HB HL HD] [Hlen Hrows] Hpool Hvec. split; simpl.
  - rewrite length_zip_with_l_eq; lia.
  - rewrite Forall_lookup. intros b row Hrow.
    apply lookup_zip_with_Some in Hrow as (v & r & -> & Hv & Hr).
    rewrite Forall_lookup in Hrows. destruct (Hrows _ _ Hr) as [HrL HrD].
    rewrite Forall_lookup in Hvec. split; simpl.
    + lia.
    + constructor; [rewrite (Hvec _ _ Hv); lia | by rewrite <- HD].
Qed.

Lemma cat2_prefix_column (B D : nat) (x : A) (t : Tensor2 A) :
  shape2 t = (B, D) → wf2 t →
  cat2_dim1 (full_B_1 B x) t = Ok (T2 B (1 + D) (cons x <$> data2 t)).
Proof.
  intros [= HB HD] [Hlen _]. unfold cat2_dim1, full_B_1. simpl.
  rewrite decide_True by done.
  rewrite zip_with_app_replicate_singleton by lia. by rewrite HD.
Qed.

Lemma cat3_prefix_vector (B L D : nat) (v : list A) (t : Tensor3 A) :
  shape3 t = (B, L, D) → wf3 t → length v = D →
  cat3_dim1 (expand_B_1 v B) t = Ok (T3 B (1 + L) D (cons v <$> data3 t)).
Proof.
  intros [= HB HL HD] [Hlen _] Hv. unfold cat3_dim1, expand_B_1. simpl.
  rewrite decide_True by (split; congruence).
  rewrite zip_with_replicate_l by lia. by rewrite HL, Hv.
Qed.

Lemma cat3_prefix_rows (B L D : nat) (p : Tensor2 A) (t : Tensor3 A) :
  shape3 t = (B, L, D) → shape2 p = (B, D) →
  cat3_dim1 (unsqueeze1 p) t = Ok (T3 B (1 + L) D (zip_with cons (data2 p) (data3 t))).
Proof.
  intros [= HB HL HD] [= HpB HpD]. unfold cat3_dim1, unsqueeze1. simpl.
  rewrite decide_True by (split; congruence).
  rewrite HpB, HL, HpD. do 2 f_equal.
  generalize (data3 t). induction (data2 p) as [|v vs IH]; intros [|r rs]; simpl; f_equal; auto.
Qed.

Lemma cat2_expand_prefix (B D : nat) (v : list A) (t : Tensor2 A) :
  shape2 t = (B, D) → wf2 t →
  cat2_dim1 (expand_B v B) t = Ok (T2 B (length v + D) (app v <$> data2 t)).
Proof.
  intros [= HB HD] [Hlen _]. unfold cat2_dim1, expand_B. simpl.
  rewrite decide_True by done.
  rewrite zip_with_replicate_l by lia. by rewrite HD.
Qed.
End shapes.

(** ** The two forward paths *)

Section forward_paths.
Context `{ItemEncoderSig}.

Lemma with_generator_run {A} (m : M Generator A) (rt : Runtime) :
  with_generator m rt = ((m (generator rt)).1, mkRuntime (self rt) (m (generator rt)).2).
Proof. unfold with_generator, zoom. by destruct (m (generator rt)). Qed.

Lemma cp_forward_unfold (emb : Tensor3 scalar) (mask : Tensor2 bool) (rt : Runtime)
    (src : Tensor3 scalar) (msk : Tensor2 bool) :
  cat3_dim1 (expand_B_1 (outfit_token (self rt)) (dimB3 emb)) emb = Ok src →
  cat2_dim1 (full_B_1 (dimB3 emb) false) mask = Ok msk →
  _cp_forward emb mask None rt = attend_and_pool src msk (cp_ffn (self rt)) rt.
Proof.
  intros Hsrc Hmsk. unfold _cp_forward, attend_and_pool.
  rewrite !bind_get, bind_ret_l. by rewrite Hsrc, Hmsk, !bind_lift_exc_ok.
Qed.

Lemma cir_forward_unfold (emb : Tensor3 scalar) (mask : Tensor2 bool)
    (text : Tensor2 scalar) (rt : Runtime)
    (pool : Tensor2 scalar) (src : Tensor3 scalar) (msk : Tensor2 bool) :
  cat2_dim1 (expand_B (target_item_image_emb (self rt)) (dimB3 emb)) text = Ok pool →
  cat3_dim1 (unsqueeze1 pool) emb = Ok src →
  cat2_dim1 (full_B_1 (dimB3 emb) false) mask = Ok msk →
  _cir_forward emb mask text rt = attend_and_pool src msk (cir_ffn (self rt)) rt.
Proof.
  intros Hpool Hsrc Hmsk. unfold _cir_forward, attend_and_pool.
  rewrite !bind_get. by rewrite Hpool, bind_lift_exc_ok, Hsrc, bind_lift_exc_ok,
    Hmsk, bind_lift_exc_ok.
Qed.

Lemma cp_forward_attend
    (rt : Runtime) (emb : Tensor3 scalar) (mask : Tensor2 bool) (B L D : nat) :
  shape3 emb = (B, L, D) → wf3 emb →
  shape2 mask = (B, L) → wf2 mask →
  length (outfit_token (self rt)) = D →
  let msk := T2 B (1 + L) (cons false <$> data2 mask) in
  let src := T3 B (1 + L) D (cons (outfit_token (self rt)) <$> data3 emb) in
  wf3 src ∧
  _cp_forward emb mask None rt = attend_and_pool src msk (cp_ffn (self rt)) rt.
Proof.
  intros Hemb Hwf Hmask Hwfm Htok msk src.
  assert (HB : dimB3 emb = B) by (by injection Hemb).
  split.
  - subst src.
    rewrite <- (zip_with_replicate_l cons B (outfit_token (self rt)))
      by (destruct Hwf; lia).
    apply wf3_zip_with_cons; auto using length_replicate.
    by apply Forall_replicate.
  - apply cp_forward_unfold; rewrite HB.
    + by apply cat3_prefix_vector.
    + by apply cat2_prefix_column.
Qed.

Lemma cir_forward_attend
    (rt : Runtime) (emb : Tensor3 scalar) (mask : Tensor2 bool) (text : Tensor2 scalar)
    (B L D : nat) :
  shape3 emb = (B, L, D) → wf3 emb →
  shape2 mask = (B, L) → wf2 mask →
  shape2 text = (B, D - length (target_item_image_emb (self rt))) → wf2 text →
  length (target_item_image_emb (self rt)) ≤ D →
  let msk := T2 B (1 + L) (cons false <$> data2 mask) in
  let src :=
    T3 B (1 + L) D
       (zip_with (λ t row, (target_item_image_emb (self rt) ++ t) :: row)
                 (data2 text) (data3 emb)) in
  wf3 src ∧
  _cir_forward emb mask text rt = attend_and_pool src msk (cir_ffn (self rt)) rt.
Proof.
  intros Hemb Hwf Hmask Hwfm Htext Hwft Hle msk src.
  assert (HB : dimB3 emb = B) by (by injection Hemb).
  set (img := target_item_image_emb (self rt)) in *.
  assert (Hpool : cat2_dim1 (expand_B img B) text
                  = Ok (T2 B D (app img <$> data2 text))).
  { erewrite cat2_expand_prefix by eauto. do 2 f_equal. lia. }
  assert (Hsrc : src = T3 B (1 + L) D
            (zip_with cons (app img <$> data2 text) (data3 emb))).
  { subst src. f_equal. by rewrite zip_with_fmap_l. }
  split.
  - rewrite Hsrc. destruct Hwft as [Hlen Hrows]. injection Htext as HtB HtD.
    apply wf3_zip_with_cons; auto.
    + rewrite length_fmap. lia.
    + apply Forall_fmap. eapply Forall_impl; [exact Hrows|].
      intros v Hv. simpl. rewrite length_app, Hv, HtD. lia.
  - rewrite Hsrc. eapply cir_forward_unfold; rewrite ?HB.
    + exact Hpool.
    + by apply cat3_prefix_rows.
    + by apply cat2_prefix_column.
Qed.

(** C10: with an [encoder_input_dict], [_cp_forward] does not look at
    the [outfit_embedding] it is given: it goes on with what the item
    encoder returns for the dict (or raises what the encoder raises);
    without one it goes on with the [outfit_embedding] as given. *)
Theorem cp_forward_encoder_input_dict
    (rt : Runtime) (emb : Tensor3 scalar) (mask : Tensor2 bool) (d : EncoderInputDict) :
  (∀ emb', _cp_forward emb' mask (Some d) rt = _cp_forward emb mask (Some d) rt) ∧
  match item_encoder_call_keywords (item_encoder (self rt)) (training (self rt)) d
          (generator rt) with
  | (Ok encoded, g) =>
      _cp_forward emb mask (Some d) rt = _cp_forward encoded mask None (mkRuntime (self rt) g)
  | (Raise e, g) =>
      _cp_forward emb mask (Some d) rt = (Raise e, mkRuntime (self rt) g)
  end ∧
  _cp_forward emb mask None rt =
    (src ← lift_exc (cat3_dim1 (expand_B_1 (outfit_token (self rt)) (dimB3 emb)) emb);
     msk ← lift_exc (cat2_dim1 (full_B_1 (dimB3 emb) false) mask);
     attend_and_pool src msk (cp_ffn (self rt))) rt.
Proof.
  split; [|split].
  - intros emb'. reflexivity.
  - unfold _cp_forward. rewrite !bind_get. rewrite !(bind_run (with_generator _)).
    rewrite with_generator_run.
    destruct (item_encoder_call_keywords _ _ _ _) as [[encoded|e] g]; reflexivity.
  - unfold _cp_forward, attend_and_pool. rewrite bind_get, bind_ret_l.
    rewrite !(bind_run (lift_exc _)). unfold lift_exc at 1 3.
    destruct (cat3_dim1 _ _) as [src|e]; [|reflexivity].
    unfold lift_exc at 1 4.
    destruct (cat2_dim1 _ _) as [msk|e]; reflexivity.
Qed.

(** *** The heads *)

Lemma runtime_eta (rt : Runtime) : mkRuntime (self rt) (generator rt) = rt.
Proof. by destruct rt. Qed.

Lemma OutfitX_init_wf (c : OutfitXConfig) (θ : InitDraws) :
  cfg_transformer_n_layers c ≠ 0 → OutfitX_wf (OutfitX_init c θ).
Proof.
  intros Hn. unfold OutfitX_wf, OutfitX_init. simpl.
  rewrite !length_fmap, !length_seq. repeat split.
  - destruct (cfg_transformer_n_layers c); [done|discriminate].
  - eexists _, _, _. split; [reflexivity|]. by rewrite length_fmap, length_seq.
  - eexists. split; [reflexivity|]. rewrite length_fmap, length_seq. split; [done|].
    apply Forall_fmap, Forall_forall. intros j _. simpl.
    by rewrite length_fmap, length_seq.
Qed.

Lemma train_wf (mode : bool) (rt : Runtime) :
  OutfitX_wf (self rt) → OutfitX_wf (self (train mode rt).2).
Proof. intros Hwf. exact Hwf. Qed.

Lemma length_encoder_layer (w : LayerParams) (noise : option Generator)
    (mask : list (list bool)) (x : list (list (list scalar))) :
  length x = length mask → length (encoder_layer w noise mask x) = length x.
Proof.
  intros Hlen. unfold encoder_layer.
  rewrite length_imap, length_zip_with_l_eq; done.
Qed.

Lemma length_encoder_layers (ws : list LayerParams) (training : bool)
    (mask : list (list bool)) (x : list (list (list scalar))) (g : Generator) :
  length x = length mask →
  length (encoder_layers ws training mask x g).1 = length x.
Proof.
  revert x g. induction ws as [|w ws IH]; intros x g Hlen; simpl; [done|].
  destruct training; rewrite IH; rewrite length_encoder_layer; done.
Qed.

Lemma TransformerEncoder_forward_ok (enc : TransformerEncoder) (training : bool)
    (src : Tensor3 scalar) (msk : Tensor2 bool) (g : Generator) :
  layers enc ≠ [] → dimD3 src = d_model enc →
  shape2 msk = (dimB3 src, dimL3 src) → dimB3 src ≠ 0 →
  TransformerEncoder_forward enc training src msk g =
  (Ok (T3 (dimB3 src) (dimL3 src) (dimD3 src)
          (encoder_layers (layers enc) training (data2 msk) (data3 src) g).1),
   (encoder_layers (layers enc) training (data2 msk) (data3 src) g).2).
Proof.
  intros Hlayers HD Hmsk HB. unfold TransformerEncoder_forward.
  rewrite decide_False, !decide_True by done. rewrite decide_False by done.
  rewrite bind_get.
  by destruct (encoder_layers _ _ _ _ _) as [out g'].
Qed.

Lemma encoder_layer_rows (w : LayerParams) (noise : option Generator)
    (mask : list (list bool)) (x : list (list (list scalar))) (n : nat) :
  Forall (λ row, length row = n) x →
  Forall (λ row, length row = n) (encoder_layer w noise mask x).
Proof.
  rewrite !Forall_lookup. intros Hrows b row'. unfold encoder_layer.
  rewrite list_lookup_imap.
  destruct (zip x mask !! b) as [[row m]|] eqn:Hb; simpl; [|done].
  intros [= <-]. unfold encoder_layer_row. rewrite length_imap.
  apply lookup_zip_with_Some in Hb as (? & ? & [= <- <-] & Hrow & _).
  by eapply Hrows.
Qed.

Lemma encoder_layers_rows (ws : list LayerParams) (training : bool)
    (mask : list (list bool)) (x : list (list (list scalar))) (g : Generator) (n : nat) :
  Forall (λ row, length row = n) x →
  Forall (λ row, length row = n) (encoder_layers ws training mask x g).1.
Proof.
  revert x g. induction ws as [|w ws IH]; intros x g Hrows; simpl; [done|].
  destruct training; by apply IH, encoder_layer_rows.
Qed.

Lemma TransformerEncoder_forward_Ok_inv (enc : TransformerEncoder) (training : bool)
    (src : Tensor3 scalar) (msk : Tensor2 bool) (g g' : Generator)
    (states : Tensor3 scalar) :
  TransformerEncoder_forward enc training src msk g = (Ok states, g') →
  shape3 states = shape3 src ∧
  states = T3 (dimB3 src) (dimL3 src) (dimD3 src)
              (encoder_layers (layers enc) training (data2 msk) (data3 src) g).1 ∧
  g' = (encoder_layers (layers enc) training (data2 msk) (data3 src) g).2 ∧
  layers enc ≠ [] ∧ shape2 msk = (dimB3 src, dimL3 src) ∧ dimB3 src ≠ 0.
Proof.
  unfold TransformerEncoder_forward. repeat case_decide; try done.
  rewrite bind_get. destruct (encoder_layers _ _ _ _ _) as [out g1]. simpl.
  intros [= <- <-]. done.
Qed.

(** What [attend_and_pool] hands to the head is, row by row, the state
    at position 0 of what the stack returns. *)
Lemma attend_and_pool_pools (rt : Runtime) (src : Tensor3 scalar) (msk : Tensor2 bool)
    (ffn : list Module) :
  wf3 src → dimL3 src ≠ 0 →
  pools_position_0 rt src msk ffn (attend_and_pool src msk ffn rt).
Proof.
  intros [Hlen Hrows] HL. unfold pools_position_0, attend_and_pool.
  rewrite bind_get, bind_run, with_generator_run.
  destruct (TransformerEncoder_forward _ _ _ _ _) as [[states|e] g'] eqn:Hrun; simpl;
    [|done].
  apply TransformerEncoder_forward_Ok_inv in Hrun as (Hshape & Hstates & _).
  split; [exact Hshape|]. injection Hshape as HsB HsL HsD.
  exists (T2 (dimB3 states) (dimD3 states) ((λ row, default [] (head row)) <$> data3 states)).
  split; [unfold shape2; simpl; congruence|]. split.
  - simpl. apply Forall2_fmap_r, Forall_Forall2_diag.
    assert (Hst : Forall (λ row, length row = dimL3 src) (data3 states)).
    { rewrite Hstates. simpl. apply encoder_layers_rows.
      eapply Forall_impl; [exact Hrows|]. by intros row [? _]. }
    eapply Forall_impl; [exact Hst|]. intros [|state0 row] Hrow; simpl in *; [lia|done].
  - unfold select_pos0. rewrite decide_False by congruence.
    by rewrite bind_lift_exc_ok.
Qed.

(** C3: on an input of shape [B, L, D] with a mask of shape [B, L],
    both forward paths put one pooling position in front of the
    sequence: the attention stack is run on a sequence of shape
    [B, 1+L, D] (the outfit token for CP, the image placeholder joined
    with the text embedding for CIR, then the items) under a mask of
    shape [B, 1+L] that starts with [False] in every row; and what the
    path returns is what its head returns for the tensor of shape [B, D]
    whose row [b] is the state at position 0 of sequence [b] of what the
    stack returned (an exception of the stack is passed on). *)
Theorem outfit_encoder_prepends_pooling_position
    (rt : Runtime) (emb : Tensor3 scalar) (mask : Tensor2 bool) (text : Tensor2 scalar)
    (B L D : nat) :
  shape3 emb = (B, L, D) → wf3 emb →
  shape2 mask = (B, L) → wf2 mask →
  let msk := T2 B (1 + L) (cons false <$> data2 mask) in
  let src_cp := T3 B (1 + L) D (cons (outfit_token (self rt)) <$> data3 emb) in
  let src_cir :=
    T3 B (1 + L) D
       (zip_with (λ t row, (target_item_image_emb (self rt) ++ t) :: row)
                 (data2 text) (data3 emb)) in
  (wf2 msk ∧ Forall (λ m, m !! 0 = Some false) (data2 msk)) ∧
  (length (outfit_token (self rt)) = D →
   wf3 src_cp ∧
   pools_position_0 rt src_cp msk (cp_ffn (self rt)) (_cp_forward emb mask None rt)) ∧
  (shape2 text = (B, D - length (target_item_image_emb (self rt))) → wf2 text →
   length (target_item_image_emb (self rt)) ≤ D →
   wf3 src_cir ∧
   pools_position_0 rt src_cir msk (cir_ffn (self rt)) (_cir_forward emb mask text rt)).
Proof.
  intros Hemb Hwf Hmask Hwfm msk src_cp src_cir.
  split; [split; [by apply wf2_cons_column|]|split].
  - simpl. apply Forall_fmap, Forall_forall. by intros m _.
  - intros Htok.
    destruct (cp_forward_attend rt emb mask B L D Hemb Hwf Hmask Hwfm Htok) as [Hsrc ->].
    split; [exact Hsrc|]. by apply attend_and_pool_pools.
  - intros Htext Hwft Hle.
    destruct (cir_forward_attend rt emb mask text B L D Hemb Hwf Hmask Hwfm Htext Hwft Hle)
      as [Hsrc ->].
    split; [exact Hsrc|]. by apply attend_and_pool_pools.
Qed.

(** C6: the CP head is a dropout followed by one linear layer with a
    single output: in evaluation mode the dropout is the identity and
    the generator is not touched, in training mode the dropout kernel
    is applied; the result has shape [B, 1] and each entry is the
    affine value [w . v + b] itself, with no activation after it. *)
Theorem cp_head_raw_logit (rt : Runtime) (states : Tensor2 scalar) (B : nat) :
  OutfitX_wf (self rt) →
  shape2 states = (B, item_encoder_d_embed (item_encoder (self rt))) →
  ∃ p w b,
    cp_ffn (self rt) =
      [Dropout p;
       LinearM (mkLinear (item_encoder_d_embed (item_encoder (self rt))) 1 [w] (Some [b]))] ∧
    with_generator (Sequential_forward (cp_ffn (self rt)) (training (self rt)) states) rt =
    if training (self rt)
    then (Ok (T2 B 1 ((λ v, [sadd (dot w v) b]) <$>
                      dropout_kernel p (generator rt) (data2 states))),
          mkRuntime (self rt) (gen_next (generator rt)))
    else (Ok (T2 B 1 ((λ v, [sadd (dot w v) b]) <$> data2 states)), rt).
Proof.
  intros (_ & _ & _ & _ & (p & w & b & Hcp & Hw) & _) [= HB HD].
  exists p, w, b. split; [exact Hcp|].
  rewrite Hcp, with_generator_run. simpl.
  unfold Dropout_forward. destruct (training (self rt)).
  - unfold mbind, M_bind, mret, M_ret, get, put, lift_exc, Linear_forward. simpl.
    rewrite decide_True by done. simpl. by rewrite HB.
  - unfold mbind, M_bind, mret, M_ret, lift_exc, Linear_forward. simpl.
    rewrite decide_True by done. simpl. by rewrite HB, runtime_eta.
Qed.

(** C4: on every valid input (a batch that is not empty) the CIR path
    returns a tensor of shape [B, D], whatever the outfit length [L] is,
    where [D] is the
    embedding dimension of the item encoder (the dimension of the
    catalog embeddings) and the configured [cfg.d_embed] is that same
    [D]; the last step is a linear layer without bias: row by row the
    product of its weight matrix with the state at position 0. *)
Theorem cir_output_dimension
    (rt : Runtime) (emb : Tensor3 scalar) (mask : Tensor2 bool) (text : Tensor2 scalar)
    (B L D : nat) :
  OutfitX_wf (self rt) →
  item_encoder_d_embed (item_encoder (self rt)) = D →
  cfg_d_embed (cfg (self rt)) = D →
  B ≠ 0 →
  shape3 emb = (B, L, D) → wf3 emb →
  shape2 mask = (B, L) → wf2 mask →
  shape2 text = (B, D - Nat.div D 2) → wf2 text →
  ∃ W src msk states out g',
    cir_ffn (self rt) = [LinearM (mkLinear D D W None)] ∧
    shape3 src = (B, 1 + L, D) ∧ shape2 msk = (B, 1 + L) ∧
    TransformerEncoder_forward (transformer_encoder (self rt)) (training (self rt))
      src msk (generator rt) = (Ok states, g') ∧
    _cir_forward emb mask text rt = (Ok out, mkRuntime (self rt) g') ∧
    shape2 out = (B, D) ∧ wf2 out ∧
    data2 out = (λ row, (λ w, dot w (default [] (head row))) <$> W) <$> data3 states.
Proof.
  intros (_ & Himg & Hdm & Hlayers & _ & (W & Hcir & HW & HWrows)) Hd Hc HB0
    Hemb Hwf Hmask Hwfm Htext Hwft.
  rewrite Hd in *. rewrite Hc in *.
  assert (Hle : Nat.div D 2 ≤ D) by (apply Nat.Div0.div_le_upper_bound; lia).
  pose proof (wf2_cons_column B L false mask Hmask Hwfm) as Hwfmsk.
  rewrite <- Himg in Htext, Hle.
  destruct (cir_forward_attend rt emb mask text B L D Hemb Hwf Hmask Hwfm Htext Hwft Hle)
    as (Hsrc & Hrun).
  set (src := T3 B (1 + L) D _) in *. set (msk := T2 B (1 + L) _) in *.
  pose proof (TransformerEncoder_forward_ok (transformer_encoder (self rt))
                (training (self rt)) src msk (generator rt) Hlayers (eq_sym Hdm) eq_refl
                HB0)
    as Henc.
  set (res := encoder_layers _ _ _ _ _) in Henc.
  exists W, src, msk, (T3 B (1 + L) D res.1),
    (T2 B D ((λ row, (λ w, dot w (default [] (head row))) <$> W) <$> res.1)), res.2.
  split; [exact Hcir|]. split; [done|]. split; [done|]. split; [exact Henc|].
  split; [|split; [done|split]].
  - rewrite Hrun. unfold attend_and_pool. rewrite bind_get, bind_run, with_generator_run.
    rewrite Henc. simpl. unfold select_pos0. simpl.
    rewrite Hcir. simpl. unfold mbind, M_bind, lift_exc, Linear_forward. simpl.
    rewrite decide_True by done. simpl.
    unfold with_generator, zoom. simpl. unfold Linear_row. simpl.
    by rewrite <- list_fmap_compose.
  - split; simpl.
    + rewrite length_fmap. subst res. rewrite length_encoder_layers.
      * destruct Hsrc as [Hlen _]. exact Hlen.
      * destruct Hsrc as [Hlen _]. destruct Hwfmsk as [Hlenm _].
        simpl in *. congruence.
    + apply Forall_fmap, Forall_forall. intros row _. simpl.
      by rewrite length_fmap.
  - reflexivity.
Qed.
End forward_paths.

(** ** Padding does not reach the pooling position *)

Section masking.
Context `{ItemEncoderSig}.



Section contract.
Variable regular : LayerParams → list scalar → list (list scalar) → list bool → Prop.
Hypothesis weightless : masked_keys_weightless regular.



End contract.











End masking.

(** ** Fill in the blank *)

Section ranking_facts.
Context `{Torch}.
Hypothesis sltb_order : sltb_strict.

Lemma argmin_from_min (l seen : list scalar) (best_i : nat) (best : scalar) :
  seen !! best_i = Some best →
  (∀ c, c ∈ seen → sltb c best = false) →
  ∃ d, (seen ++ l) !! argmin_from best_i best (length seen) l = Some d ∧
       ∀ c, c ∈ seen ++ l → sltb c d = false.
Proof.
  destruct sltb_order as [Hirrefl Htrans].
  revert seen best_i best. induction l as [|d l IH]; intros seen best_i best Hbest Hmin.
  - simpl. rewrite app_nil_r. eauto.
  - simpl. replace (seen ++ d :: l) with ((seen ++ [d]) ++ l) by (by rewrite <- app_assoc).
    replace (S (length seen)) with (length (seen ++ [d])) by (rewrite length_app; simpl; lia).
    destruct (sltb d best) eqn:Hlt.
    + apply IH.
      * rewrite lookup_app_r by lia. by rewrite Nat.sub_diag.
      * intros c [Hc | ->%list_elem_of_singleton]%elem_of_app; [|apply Hirrefl].
        destruct (sltb c d) eqn:Hcd; [|done].
        pose proof (Hmin c Hc) as Hcb.
        by rewrite (Htrans c d best Hcd Hlt) in Hcb.
    + apply IH.
      * apply lookup_app_l_Some, Hbest.
      * intros c [Hc | ->%list_elem_of_singleton]%elem_of_app; auto.
Qed.

Lemma argmin_row_min (l : list scalar) :
  l ≠ [] →
  ∃ d, l !! argmin_row l = Some d ∧ ∀ c, c ∈ l → sltb c d = false.
Proof.
  destruct l as [|d l]; [done|]. intros _. simpl.
  apply (argmin_from_min l [d] 0 d); [done|].
  intros c ->%list_elem_of_singleton. apply sltb_order.
Qed.

Lemma y_hats_index_of_rows (y_hats : Tensor2 scalar) (cands : Tensor3 scalar) :
  dimB2 y_hats = dimB3 cands → dimD2 y_hats = dimD3 cands → dimL3 cands ≠ 0 →
  y_hats_index_of (unsqueeze1 y_hats) cands =
  Ok ((λ yc, argmin_row (cdist_p2 yc.1 <$> yc.2)) <$> zip (data2 y_hats) (data3 cands)).
Proof.
  intros HB HD HC. unfold y_hats_index_of, torch_cdist, broadcast_batch. simpl.
  rewrite !decide_True by done.
  unfold torch_argmin, squeeze1. simpl. rewrite decide_False by done.
  f_equal. rewrite <- !list_fmap_compose.
  generalize (data3 cands).
  induction (data2 y_hats) as [|v vs IH]; intros [|cs css]; simpl; f_equal; auto.
Qed.
End ranking_facts.

Section fill_in_the_blank.
Context `{ItemEncoderSig}.

(** C5: [forward_] maps the fill-in-the-blank task to the same bound
    method as the complementary-item-retrieval task, so the two tags
    give the same result on the same arguments; and the evaluation
    picks, for each row, an index into that row's candidates whose
    distance to the predicted embedding is minimal among the
    candidates of the row (the candidates that come with the batch,
    not a catalog). *)
Theorem fill_in_the_blank_reuses_cir_and_ranks_candidates :
  sltb_strict →
  forward_ !! OutfitFillInTheBlankTask = Some call_cir_forward ∧
  forward_ !! OutfitComplementaryItemRetrievalTask = Some call_cir_forward ∧
  (∀ args rt,
     forward OutfitFillInTheBlankTask args rt =
     forward OutfitComplementaryItemRetrievalTask args rt) ∧
  (∀ emb mask text rt,
     forward OutfitFillInTheBlankTask (CIRArgs emb mask text) rt =
     _cir_forward emb mask text rt) ∧
  (∀ batch_dict emb mask text rt,
     input_task batch_dict = OutfitFillInTheBlankTask →
     input_args batch_dict = CIRArgs emb mask text →
     test_step batch_dict rt =
     (y_hats ← _cir_forward emb mask text;
      y_hats_index ← lift_exc (y_hats_index_of (unsqueeze1 y_hats)
                                 (candidate_item_embedding batch_dict));
      hits ← lift_exc (count_equal y_hats_index (answer_index batch_dict));
      mret (length y_hats_index, hits)) rt) ∧
  (∀ (y_hats : Tensor2 scalar) (cands : Tensor3 scalar),
     dimB2 y_hats = dimB3 cands → dimD2 y_hats = dimD3 cands →
     dimL3 cands ≠ 0 → wf3 cands →
     ∃ y_hats_index,
       y_hats_index_of (unsqueeze1 y_hats) cands = Ok y_hats_index ∧
       Forall2
         (λ (yc : list scalar * list (list scalar)) (k : nat),
            ∃ ck, yc.2 !! k = Some ck ∧
                  ∀ c, c ∈ yc.2 → sltb (cdist_p2 yc.1 c) (cdist_p2 yc.1 ck) = false)
         (zip (data2 y_hats) (data3 cands)) y_hats_index).
Proof.
  intros Hord. split; [done|]. split; [done|]. split; [done|]. split; [done|].
  split.
  { intros batch_dict emb mask text rt Htask Hargs. unfold test_step.
    by rewrite Htask, Hargs. }
  intros y_hats cands HB HD HC [_ Hrows].
  eexists. split; [by apply y_hats_index_of_rows|].
  apply Forall2_fmap_r, Forall_Forall2_diag, Forall_forall.
  intros [v cs] Hin. simpl.
  assert (Hcs : cs ∈ data3 cands).
  { apply list_elem_of_lookup in Hin as [b Hb].
    apply lookup_zip_with_Some in Hb as (? & ? & [= <- <-] & _ & Hb).
    by eapply list_elem_of_lookup_2. }
  rewrite Forall_forall in Hrows. destruct (Hrows cs Hcs) as [Hlen _].
  destruct (argmin_row_min Hord (cdist_p2 v <$> cs)) as (d & Hd & Hmin).
  { destruct cs; [simpl in Hlen; lia|done]. }
  apply list_lookup_fmap_Some in Hd as (ck & -> & Hck).
  exists ck. split; [done|]. intros c Hc. apply Hmin. by apply list_elem_of_fmap_2.
Qed.
End fill_in_the_blank.

(** ** The embedding cache *)

Lemma insert_sorted_elem_of (x y : string) (l : list string) :
  y ∈ insert_sorted x l ↔ y = x ∨ y ∈ l.
Proof.
  induction l as [|z l IH]; simpl.
  - rewrite list_elem_of_singleton, elem_of_nil. tauto.
  - destruct (String.leb x z); rewrite !elem_of_cons; [tauto|]. rewrite IH. tauto.
Qed.

Lemma sorted_elem_of (y : string) (l : list string) : y ∈ sorted l ↔ y ∈ l.
Proof.
  induction l as [|x l IH]; simpl; [done|].
  by rewrite insert_sorted_elem_of, elem_of_cons, IH.
Qed.

Section embedding_cache.
Context `{ItemEncoderSig}.

Lemma lookup_entry_is_Some (es : list (string * Shard)) (file : string) :
  file ∈ es.*1 → is_Some (lookup_entry es file).
Proof.
  intros Hin. unfold lookup_entry. apply fmap_is_Some.
  apply list_elem_of_fmap in Hin as (e & -> & He).
  destruct (list_find (λ e', e'.1 = e.1) es) as [r|] eqn:Hfind; [by eexists|].
  apply list_find_None in Hfind. rewrite Forall_forall in Hfind.
  by destruct (Hfind e He).
Qed.

Lemma glob_files_resolve (d : Directory) (prefix : string) :
  let files := sorted (filter (λ name, glob_match prefix name = true) (entries d).*1) in
  ∃ shards, Forall2 (λ file shard, lookup_entry (entries d) file = Some shard) files shards.
Proof.
  intros files.
  assert (Hall : Forall (λ file, is_Some (lookup_entry (entries d) file)) files).
  { apply Forall_forall. intros file Hfile. apply lookup_entry_is_Some.
    apply sorted_elem_of, list_elem_of_filter in Hfile. tauto. }
  induction Hall as [|file files' [shard Hshard] _ [shards IH]].
  - exists []. constructor.
  - exists (shard :: shards). by constructor.
Qed.

Lemma load_embeddings_loop_run (files : list string) (shards : list Shard)
    (all_ids : list Z) (all_embeddings : list (Tensor2 scalar)) (d : Directory) :
  Forall2 (λ file shard, lookup_entry (entries d) file = Some shard) files shards →
  load_embeddings_loop files all_ids all_embeddings d =
  (Ok (all_ids ++ concat (shard_ids <$> shards),
       all_embeddings ++ (shard_embeddings <$> shards)),
   mkDirectory (entries d) (opened d ++ files)).
Proof.
  intros Hres. revert shards all_ids all_embeddings d Hres.
  induction files as [|file files IH]; intros shards all_ids all_embeddings d Hres.
  - apply Forall2_nil_inv_l in Hres as ->. simpl. rewrite !app_nil_r. by destruct d.
  - apply Forall2_cons_inv_l in Hres as (shard & shards' & Hshard & Hrest & ->).
    simpl. rewrite bind_run. unfold open_and_load. rewrite Hshard.
    rewrite (IH shards') by exact Hrest. simpl. by rewrite <- !app_assoc.
Qed.

Lemma dict_of_pairs_not_key (pairs : list (Z * list scalar)) (k : Z)
    (d0 : gmap Z (list scalar)) :
  k ∉ pairs.*1 →
  foldl (λ d kv, <[kv.1 := kv.2]> d) d0 pairs !! k = d0 !! k.
Proof.
  revert d0. induction pairs as [|[k' v'] pairs IH]; intros d0 Hk; simpl; [done|].
  rewrite fmap_cons, not_elem_of_cons in Hk. destruct Hk as [Hne Hk]. simpl in Hne.
  rewrite IH by done. by rewrite lookup_insert_ne.
Qed.

(** A later pair replaces an earlier pair with the same key. *)
Lemma dict_of_pairs_last (l1 l2 : list (Z * list scalar)) (k : Z) (v : list scalar) :
  k ∉ l2.*1 → dict_of_pairs (l1 ++ (k, v) :: l2) !! k = Some v.
Proof.
  intros Hk. unfold dict_of_pairs. rewrite foldl_app. simpl.
  rewrite dict_of_pairs_not_key by done. apply lookup_insert_eq.
Qed.

(** C7 (as amended): [load_embeddings] takes the files of the directory
    whose names match [prefix*.pkl], in the order of their names.
    When there is none it raises [FileNotFoundError] and has opened no
    file.  Otherwise it opens them in that order, joins their id lists
    and stacks their embedding matrices in that order, and returns the
    dict that maps each id to the row at its place (at its last place
    when an id occurs more than once); matrices of different widths
    make [np.concatenate] raise. *)
Theorem load_embeddings_merges_shards_in_file_order (d : Directory) (prefix : string) :
  let files := sorted (filter (λ name, glob_match prefix name = true) (entries d).*1) in
  (files = [] →
   load_embeddings prefix d =
   (Raise (FileNotFoundError ("找不到任何文件: " +:+ prefix +:+ "*.pkl")), d)) ∧
  (files ≠ [] →
   ∃ shards,
     Forall2 (λ file shard, lookup_entry (entries d) file = Some shard) files shards ∧
     let all_ids := concat (shard_ids <$> shards) in
     let rows := concat (data2 <$> (shard_embeddings <$> shards)) in
     load_embeddings prefix d =
     (match np_concatenate_axis0 (shard_embeddings <$> shards) with
      | Ok _ => Ok (dict_of_pairs (zip all_ids rows))
      | Raise e => Raise e
      end,
      mkDirectory (entries d) (opened d ++ files)) ∧
     ∀ l1 l2 k v, zip all_ids rows = l1 ++ (k, v) :: l2 → k ∉ l2.*1 →
                  dict_of_pairs (zip all_ids rows) !! k = Some v).
Proof.
  intros files. split.
  - intros Hnone. unfold load_embeddings. rewrite bind_run.
    unfold fmap, M_fmap, glob. fold files. rewrite Hnone. simpl. done.
  - intros Hsome. destruct (glob_files_resolve d prefix) as [shards Hres].
    fold files in Hres. exists shards. split; [exact Hres|]. split.
    + unfold load_embeddings. rewrite bind_run.
      unfold fmap at 1, M_fmap, glob. fold files.
      rewrite decide_False by done. rewrite bind_run.
      rewrite (load_embeddings_loop_run files shards [] [] d Hres). simpl.
      rewrite bind_run. unfold lift_exc.
      destruct (np_concatenate_axis0 (shard_embeddings <$> shards)) as [all|e] eqn:Hcat;
        [|done].
      unfold np_concatenate_axis0 in Hcat.
      destruct (shard_embeddings <$> shards) as [|a0 arrays] eqn:Harr; [done|].
      case_decide; [|done]. injection Hcat as <-. done.
    + intros l1 l2 k v Hzip Hk. rewrite Hzip. by apply dict_of_pairs_last.
Qed.
End embedding_cache.

(** ** Evaluation on several workers *)

Section setup.
Context `{DistributedTrainerSig}.

(** C8 (as amended): when the run mode is ['test'] and the world size
    is larger than one, [hook_after_setup] raises [ValueError]; by then
    it has stored the device type and nothing else: no checkpoint is
    loaded, and the model, the random generator and the batches of the
    test dataloader are untouched. *)
Theorem hook_after_setup_rejects_multi_worker_test (tr : FillInTheBlankTrainer) :
  (1 < world_size tr)%Z → run_mode tr = "test" →
  hook_after_setup tr =
  (Raise (ValueError "测试模式下不支持分布式"),
   set_device_type (if torch_cuda_is_available then "cuda" else "cpu") tr).
Proof.
  intros Hworld Hmode. unfold hook_after_setup.
  rewrite bind_get, bind_run. unfold put. simpl.
  rewrite Hmode. simpl. by rewrite bool_decide_eq_true_2.
Qed.
End setup.

(** ** Precomputing the item embeddings *)

Section precompute.
Context `{ItemEncoderSig}.

Lemma select_pos0_single (embeddings : Tensor3 scalar) :
  dimL3 embeddings = 1 → wf3 embeddings →
  ∃ out, select_pos0 embeddings = Ok out ∧
         shape2 out = (dimB3 embeddings, dimD3 embeddings) ∧ wf2 out ∧
         data3 embeddings = (λ v, [v]) <$> data2 out.
Proof.
  intros HL [Hlen Hrows]. unfold select_pos0. rewrite decide_False by lia.
  eexists. split; [reflexivity|]. split; [done|]. simpl.
  assert (Hsingle : Forall (λ row, ∃ v, row = [v] ∧ length v = dimD3 embeddings)
                           (data3 embeddings)).
  { eapply Forall_impl; [exact Hrows|]. intros row [Hrow Hvec]. simpl in *.
    rewrite HL in Hrow. destruct row as [|v [|? ?]]; try done.
    exists v. split; [done|]. by apply Forall_inv in Hvec. }
  clear Hrows. split; [split; simpl|].
  - by rewrite length_fmap.
  - apply Forall_fmap. eapply Forall_impl; [exact Hsingle|].
    by intros row (v & -> & Hv).
  - rewrite <- list_fmap_compose. revert Hsingle. generalize (data3 embeddings).
    intros rows Hsingle.
    induction Hsingle as [|row rows' (v & -> & _) _ IH]; simpl; [done|by f_equal].
Qed.

Lemma precompute_embeddings_run (rt : Runtime) (images : list (list Image))
    (texts : list (list Text)) :
  precompute_embeddings images texts rt =
  let r := item_encoder_call_positional (item_encoder (self rt)) (training (self rt))
             images texts (generator rt) in
  (match r.1 with Ok embeddings => select_pos0 embeddings | Raise e => Raise e end,
   mkRuntime (self rt) r.2).
Proof.
  unfold precompute_embeddings. rewrite bind_get, bind_run, with_generator_run.
  simpl. by destruct (item_encoder_call_positional _ _ _ _ _) as [[emb|e] g].
Qed.
End precompute.

Section precompute_deterministic.
Context `{TH : Torch} `{IE : !ItemEncoderSig} `{CL : !CLIPSig}.

(** C9: in evaluation mode, with an item encoder that does not draw
    from the random generator in that mode, a second run of
    [precompute_embeddings] on the same input returns what the first
    run returned, whatever the state of the generator, and neither run
    changes the module or the generator; when the encoder returns one
    position per item (shape [B, 1, D]) the result is the slice at that
    position, of shape [B, D]: one embedding per item.  The image
    encoder's [_forward], run twice on the same images and the same
    [processor_kargs] object, returns the same embeddings as well. *)
Theorem precompute_embeddings_deterministic_one_per_item
    (rt : Runtime) (images : list (list Image)) (texts : list (list Text)) :
  item_encoder_eval_deterministic →
  training (self rt) = false →
  let run1 := precompute_embeddings images texts rt in
  let run2 := precompute_embeddings images texts run1.2 in
  run1.2 = rt ∧ run2 = run1 ∧
  (∀ g, (precompute_embeddings images texts (mkRuntime (self rt) g)).1 = run1.1) ∧
  (∀ embeddings,
     (item_encoder_call_positional (item_encoder (self rt)) false images texts
        (generator rt)).1 = Ok embeddings →
     dimL3 embeddings = 1 → wf3 embeddings →
     ∃ out, run1.1 = Ok out ∧
            shape2 out = (dimB3 embeddings, dimD3 embeddings) ∧ wf2 out ∧
            data3 embeddings = (λ v, [v]) <$> data2 out) ∧
  (∀ (imgs : list ImageInput) (processor_kargs : option (gmap string string)),
     let call1 := CLIPImageEncoder_forward imgs processor_kargs in
     let call2 := CLIPImageEncoder_forward imgs call1.2 in
     call2 = call1).
Proof.
  intros Hdet Heval run1 run2.
  assert (Hrt : run1.2 = rt).
  { subst run1. rewrite precompute_embeddings_run. simpl. rewrite Heval.
    destruct (Hdet (item_encoder (self rt)) images texts (generator rt) (generator rt))
      as [-> _]. by destruct rt. }
  split; [exact Hrt|]. split; [subst run2; by rewrite Hrt|]. split; [|split].
  - intros g. subst run1. rewrite !precompute_embeddings_run. simpl. rewrite Heval.
    by destruct (Hdet (item_encoder (self rt)) images texts g (generator rt)) as [_ ->].
  - intros embeddings Henc HL Hwf. subst run1. rewrite precompute_embeddings_run.
    simpl. rewrite Heval, Henc.
    destruct (select_pos0_single embeddings HL Hwf) as (out & -> & Hout). by exists out.
  - intros imgs processor_kargs call1 call2. subst call1 call2.
    unfold CLIPImageEncoder_forward. rewrite !bind_get.
    destruct processor_kargs as [kargs|]; simpl.
    + unfold mbind, M_bind, put, lift_exc. simpl.
      destruct (CLIPImageProcessor_call imgs _) as [pixels|e] eqn:Hproc; simpl.
      * destruct (CLIPVisionModelWithProjection_call pixels) as [embeds|e] eqn:Hmodel;
          simpl; rewrite insert_insert_eq, Hproc; simpl; by rewrite ?Hmodel.
      * by rewrite insert_insert_eq, Hproc.
    + unfold mbind, M_bind, mret, M_ret, lift_exc. simpl.
      destruct (CLIPImageProcessor_call imgs _) as [pixels|e] eqn:Hproc; simpl.
      * destruct (CLIPVisionModelWithProjection_call pixels) as [embeds|e] eqn:Hmodel;
          simpl; rewrite ?Hproc; simpl; by rewrite ?Hmodel.
      * by rewrite Hproc.
Qed.
End precompute_deterministic.

(** * The statements on the integer instance *)

Section examples.
Import ZModel.
#[local] Existing Instance ZTorch.
#[local] Existing Instance ZItemEncoder.
#[local] Existing Instance ZCLIP.
#[local] Existing Instance ZDistributedTrainer.

Lemma model_train_wf : OutfitX_wf (self model_train).
Proof. by apply OutfitX_init_wf. Qed.

Lemma model_eval_wf : OutfitX_wf (self model_eval).
Proof. apply (train_wf false model_train), model_train_wf. Qed.

Lemma Z_sltb_strict : sltb_strict.
Proof.
  split; simpl.
  - intros a. apply Z.ltb_irrefl.
  - intros a b c Hab Hbc. apply Z.ltb_lt. apply Z.ltb_lt in Hab, Hbc. lia.
Qed.

Lemma Z_item_encoder_eval_deterministic : item_encoder_eval_deterministic.
Proof.
  intros enc images texts g g'. simpl. unfold Z_encoder_call.
  case_decide; split; reflexivity.
Qed.


(** An unregistered tag raises [KeyError] and changes nothing. *)
Lemma forward_unregistered_task_KeyError_witness :
  forward_ !! OtherTask "FashionItem" = None ∧
  forward (OtherTask "FashionItem") (CIRArgs outfit2 mask2 text1) model_eval
  = (Raise (KeyError "FashionItem"), model_eval).
Proof.
  split; [apply forward__other|].
  apply (forward_unregistered_task_KeyError (OtherTask "FashionItem")).
  apply forward__other.
Defined.

(** The exception of an unregistered tag is not an
    [UnsupportedTaskError]. *)
Lemma forward_unregistered_task_not_UnsupportedTaskError :
  forward_ !! OtherTask "FashionItem" = None ∧
  (forward (OtherTask "FashionItem") (CIRArgs outfit2 mask2 text1) model_eval).1
  = Raise (KeyError "FashionItem") ∧
  ¬ raises (forward (OtherTask "FashionItem") (CIRArgs outfit2 mask2 text1) model_eval).1
           "UnsupportedTaskError".
Proof.
  split; [apply forward__other|].
  unfold forward. rewrite forward__other. simpl. split; [done|].
  rewrite raises_class. discriminate.
Qed.



(** Why the statement above asks for regular runs: on the instance with
    a value that is not a number, two sequences that agree off the
    padding get different states at position 0 when the padded slot of
    one of them holds that value. *)
Example padded_value_reaches_position_0_when_not_finite :
  @rows_agree NaNModel.FTorch [false; true]
     [[Some 1]; [Some 5]]%Z [[Some 1]; [None]]%Z ∧
  @encoder_layer_row NaNModel.FTorch 2%Z None 0 [[Some 1]; [Some 5]]%Z [false; true]
  = [[Some 3]; [Some 7]]%Z ∧
  @encoder_layer_row NaNModel.FTorch 2%Z None 0 [[Some 1]; [None]]%Z [false; true]
  = [[None]; [None]] ∧
  ¬ @masked_keys_weightless NaNModel.FTorch (λ _ _ _ _, True).
Proof.
  assert (Hagree : @rows_agree NaNModel.FTorch [false; true]
                     [[Some 1]; [Some 5]]%Z [[Some 1]; [None]]%Z).
  { split; [done|]. by intros [|[|i]]. }
  split; [exact Hagree|]. split; [reflexivity|]. split; [reflexivity|].
  intros Hweightless.
  specialize (Hweightless 2%Z None 0 0 [Some 1%Z] _ _ _ I I Hagree).
  discriminate Hweightless.
Qed.

Lemma wf3_outfit2 : wf3 outfit2.
Proof. split; [done|]. repeat constructor. Qed.

Lemma wf2_mask2 : wf2 mask2.
Proof. split; [done|]. repeat constructor. Qed.

Lemma wf2_text1 : wf2 text1.
Proof. split; [done|]. repeat constructor. Qed.

(** An outfit of length two: the stack gets three positions, and the
    head the state at the first of them. *)
Lemma outfit_encoder_prepends_pooling_position_witness :
  (shape3 outfit2 = (1, 2, 4) ∧ wf3 outfit2 ∧ shape2 mask2 = (1, 2) ∧ wf2 mask2) ∧
  (length (outfit_token (self model_eval)) = 4 ∧
   pools_position_0 model_eval
     (T3 1 3 4 [[[0; 1; 2; 3]; [1; 2; 3; 4]; [5; 6; 7; 8]]]%Z)
     (T2 1 3 [[false; false; false]]) (cp_ffn (self model_eval))
     (_cp_forward outfit2 mask2 None model_eval)) ∧
  (shape2 text1 = (1, 4 - length (target_item_image_emb (self model_eval))) ∧
   wf2 text1 ∧
   pools_position_0 model_eval
     (T3 1 3 4 [[[5; 6; 9; 10]; [1; 2; 3; 4]; [5; 6; 7; 8]]]%Z)
     (T2 1 3 [[false; false; false]]) (cir_ffn (self model_eval))
     (_cir_forward outfit2 mask2 text1 model_eval)).
Proof.
  destruct (outfit_encoder_prepends_pooling_position model_eval outfit2 mask2 text1
              1 2 4 eq_refl wf3_outfit2 eq_refl wf2_mask2) as (_ & Hcp & Hcir).
  split; [by auto using wf3_outfit2, wf2_mask2|]. split.
  - split; [reflexivity|]. exact (proj2 (Hcp eq_refl)).
  - split; [reflexivity|]. split; [exact wf2_text1|].
    refine (proj2 (Hcir eq_refl wf2_text1 _)). simpl. lia.
Defined.

(** The pooled state of that outfit is the first of the three states
    that the stack returns, not another one. *)
Example cp_forward_pools_first_state :
  (TransformerEncoder_forward (transformer_encoder (self model_eval)) false
     (T3 1 3 4 [[[0; 1; 2; 3]; [1; 2; 3; 4]; [5; 6; 7; 8]]]%Z)
     (T2 1 3 [[false; false; false]]) 7).1
  = Ok (T3 1 3 4 [[[96; 145; 194; 243]; [97; 146; 195; 244]; [101; 150; 199; 248]]]%Z) ∧
  (with_generator (Sequential_forward (cp_ffn (self model_eval)) false
                     (T2 1 4 [[96; 145; 194; 243]]%Z)) model_eval).1
  = (_cp_forward outfit2 mask2 None model_eval).1.
Proof. vm_compute. split; reflexivity. Qed.

Lemma wf3_outfit8 : wf3 outfit8.
Proof. split; [done|]. repeat constructor. Qed.

Lemma wf2_mask8 : wf2 mask8.
Proof. split; [done|]. repeat constructor. Qed.

(** The CIR path on an outfit of length two and on one of length eight:
    shape [1, 4] both times. *)
Lemma cir_output_dimension_witness :
  (OutfitX_wf (self model_eval) ∧
   item_encoder_d_embed (item_encoder (self model_eval)) = 4 ∧
   cfg_d_embed (cfg (self model_eval)) = 4 ∧ 1 ≠ 0 ∧
   shape3 outfit2 = (1, 2, 4) ∧ wf3 outfit2 ∧ shape2 mask2 = (1, 2) ∧ wf2 mask2 ∧
   shape3 outfit8 = (1, 8, 4) ∧ wf3 outfit8 ∧ shape2 mask8 = (1, 8) ∧ wf2 mask8 ∧
   shape2 text1 = (1, 4 - Nat.div 4 2) ∧ wf2 text1) ∧
  (∃ out rt',
     _cir_forward outfit2 mask2 text1 model_eval = (Ok out, rt') ∧
     shape2 out = (1, 4) ∧ wf2 out) ∧
  (∃ out rt',
     _cir_forward outfit8 mask8 text1 model_eval = (Ok out, rt') ∧
     shape2 out = (1, 4) ∧ wf2 out).
Proof.
  split; [|split].
  - by auto 15 using model_eval_wf, wf3_outfit2, wf2_mask2, wf3_outfit8, wf2_mask8,
      wf2_text1.
  - destruct (cir_output_dimension model_eval outfit2 mask2 text1 1 2 4
                model_eval_wf eq_refl eq_refl ltac:(discriminate) eq_refl wf3_outfit2
                eq_refl wf2_mask2 eq_refl wf2_text1)
      as (W & src & msk & states & out & g' & _ & _ & _ & _ & Hrun & Hshape & Hwf & _).
    by exists out, (mkRuntime (self model_eval) g').
  - destruct (cir_output_dimension model_eval outfit8 mask8 text1 1 8 4
                model_eval_wf eq_refl eq_refl ltac:(discriminate) eq_refl wf3_outfit8
                eq_refl wf2_mask8 eq_refl wf2_text1)
      as (W & src & msk & states & out & g' & _ & _ & _ & _ & Hrun & Hshape & Hwf & _).
    by exists out, (mkRuntime (self model_eval) g').
Defined.

(** The output dimension is the configured [cfg.d_embed]: with
    [cfg.d_embed = 2] and an item encoder of dimension 4 the CIR path
    returns rows of length 2. *)
Example cir_output_follows_cfg_d_embed :
  (_cir_forward outfit2 mask2 text1 model_narrow).1
  = Ok (T2 1 2 [[348; 504]]%Z).
Proof. vm_compute. reflexivity. Qed.

(** A catalog of two predictions with three candidates each: the
    second and the third candidate are the nearest. *)
Lemma fill_in_the_blank_reuses_cir_and_ranks_candidates_witness :
  sltb_strict ∧
  forward OutfitFillInTheBlankTask (CIRArgs outfit2 mask2 text1) model_eval
  = forward OutfitComplementaryItemRetrievalTask (CIRArgs outfit2 mask2 text1) model_eval ∧
  ∃ y_hats_index,
    y_hats_index_of (unsqueeze1 y_hats2) candidates2 = Ok y_hats_index ∧
    Forall2
      (λ (yc : list Z * list (list Z)) (k : nat),
         ∃ ck, yc.2 !! k = Some ck ∧
               ∀ c, c ∈ yc.2 → Z.ltb (Z_cdist_p2 yc.1 c) (Z_cdist_p2 yc.1 ck) = false)
      (zip (data2 y_hats2) (data3 candidates2)) y_hats_index.
Proof.
  destruct (fill_in_the_blank_reuses_cir_and_ranks_candidates Z_sltb_strict)
    as (_ & _ & Hsame & _ & _ & Hrank).
  split; [exact Z_sltb_strict|]. split; [apply Hsame|].
  apply Hrank; [reflexivity | reflexivity | discriminate |].
  split; [reflexivity|]. repeat constructor.
Defined.

(** The head on two pooled states, in evaluation and in training mode *)
Lemma cp_head_raw_logit_witness :
  (OutfitX_wf (self model_eval) ∧ OutfitX_wf (self model_train) ∧
   shape2 states2 = (2, item_encoder_d_embed (item_encoder (self model_eval)))) ∧
  with_generator (Sequential_forward (cp_ffn (self model_eval)) false states2) model_eval
  = (Ok (T2 2 1 [[10]; [17]]%Z), model_eval) ∧
  with_generator (Sequential_forward (cp_ffn (self model_train)) true states2) model_train
  = (Ok (T2 2 1 [[5]; [31]]%Z), mkRuntime (self model_train) 8).
Proof.
  split; [by auto using model_eval_wf, model_train_wf|]. split.
  - destruct (cp_head_raw_logit model_eval states2 2 model_eval_wf eq_refl)
      as (p & w & b & Hcp & Hrun).
    injection Hcp as <- <- <-. exact Hrun.
  - destruct (cp_head_raw_logit model_train states2 2 model_train_wf eq_refl)
      as (p & w & b & Hcp & Hrun).
    injection Hcp as <- <- <-. exact Hrun.
Defined.

(** Two shards and a file that is none: the shards are read in the
    order of their names. *)
Lemma load_embeddings_merges_shards_in_file_order_witness :
  load_embeddings "m_embedding_subset_" cache_dir
  = (Ok (dict_of_pairs [(11, [1; 2]); (12, [3; 4]); (13, [5; 6])]%Z),
     mkDirectory (entries cache_dir)
                 ["m_embedding_subset_0.pkl"; "m_embedding_subset_1.pkl"]) ∧
  load_embeddings "m_embedding_subset_" empty_cache_dir
  = (Raise (FileNotFoundError "找不到任何文件: m_embedding_subset_*.pkl"), empty_cache_dir).
Proof.
  split.
  - destruct (load_embeddings_merges_shards_in_file_order cache_dir "m_embedding_subset_")
      as [_ Hsome].
    destruct Hsome as (shards & Hres & Hrun & _); [discriminate|].
    apply Forall2_cons_inv_l in Hres as (s0 & shards' & Hs0 & Hres & ->).
    apply Forall2_cons_inv_l in Hres as (s1 & shards'' & Hs1 & Hres & ->).
    apply Forall2_nil_inv_l in Hres as ->.
    injection Hs0 as <-. injection Hs1 as <-. exact Hrun.
  - by apply (load_embeddings_merges_shards_in_file_order empty_cache_dir
                "m_embedding_subset_").
Defined.

(** Without a shard the exception is not a [MissingEmbeddingCacheError]. *)
Lemma load_embeddings_not_MissingEmbeddingCacheError :
  filter (λ name, glob_match "m_embedding_subset_" name = true)
         (entries empty_cache_dir).*1 = [] ∧
  ¬ raises (load_embeddings "m_embedding_subset_" empty_cache_dir).1
           "MissingEmbeddingCacheError".
Proof.
  split; [reflexivity|].
  replace (load_embeddings "m_embedding_subset_" empty_cache_dir).1
    with (Raise (A := gmap Z (list Z))
            (FileNotFoundError "找不到任何文件: m_embedding_subset_*.pkl"))
    by reflexivity.
  rewrite raises_class. discriminate.
Qed.

Lemma hook_after_setup_rejects_multi_worker_test_witness :
  (1 < world_size trainer_two_workers)%Z ∧ run_mode trainer_two_workers = "test" ∧
  hook_after_setup trainer_two_workers
  = (Raise (ValueError "测试模式下不支持分布式"),
     set_device_type "cpu" trainer_two_workers).
Proof.
  split; [reflexivity|]. split; [reflexivity|].
  exact (hook_after_setup_rejects_multi_worker_test trainer_two_workers eq_refl eq_refl).
Defined.

(** On two workers the exception is not an
    [UnsupportedConcurrencyModeError]. *)
Lemma hook_after_setup_not_UnsupportedConcurrencyModeError :
  (1 < world_size trainer_two_workers)%Z ∧ run_mode trainer_two_workers = "test" ∧
  ¬ raises (hook_after_setup trainer_two_workers).1 "UnsupportedConcurrencyModeError".
Proof.
  split; [reflexivity|]. split; [reflexivity|].
  replace (hook_after_setup trainer_two_workers).1
    with (Raise (A := unit) (ValueError "测试模式下不支持分布式")) by reflexivity.
  rewrite raises_class. discriminate.
Qed.

Lemma precompute_embeddings_deterministic_one_per_item_witness :
  item_encoder_eval_deterministic ∧ training (self model_eval) = false ∧
  precompute_embeddings [[1]; [2]]%Z [[3]; [4]]%Z
    (precompute_embeddings [[1]; [2]]%Z [[3]; [4]]%Z model_eval).2
  = precompute_embeddings [[1]; [2]]%Z [[3]; [4]]%Z model_eval ∧
  (precompute_embeddings [[1]; [2]]%Z [[3]; [4]]%Z model_eval).2 = model_eval.
Proof.
  split; [exact Z_item_encoder_eval_deterministic|]. split; [reflexivity|].
  destruct (precompute_embeddings_deterministic_one_per_item model_eval
              [[1]; [2]]%Z [[3]; [4]]%Z Z_item_encoder_eval_deterministic eq_refl)
    as (Hstate & Hsame & _).
  by split.
Defined.

Lemma cp_forward_encoder_input_dict_witness :
  _cp_forward outfit2 mask2 (Some ([[1; 2]], [[3; 4]])%Z) model_eval
  = _cp_forward (outfit3 [0; 0; 0; 0]%Z) mask2 (Some ([[1; 2]], [[3; 4]])%Z) model_eval.
Proof.
  apply (cp_forward_encoder_input_dict model_eval (outfit3 [0; 0; 0; 0]%Z) mask2
           ([[1; 2]], [[3; 4]])%Z).
Defined.
End examples.


(** * Further properties *)

(** ** What a call leaves alone *)

Section module_kept.
Context `{ItemEncoderSig}.

Lemma keeps_self_ret {A} (a : A) : keeps_self (mret a).
Proof. by intros rt. Qed.

Lemma keeps_self_raise {A} (e : PyExc) : keeps_self (raise e : M Runtime A).
Proof. by intros rt. Qed.

Lemma keeps_self_lift_exc {A} (r : Exc A) : keeps_self (lift_exc r).
Proof. by intros rt. Qed.

Lemma keeps_self_get : keeps_self get.
Proof. by intros rt. Qed.

Lemma keeps_self_with_generator {A} (m : M Generator A) : keeps_self (with_generator m).
Proof. intros rt. by rewrite with_generator_run. Qed.

Lemma keeps_self_bind {A B} (m : M Runtime A) (k : A → M Runtime B) :
  keeps_self m → (∀ a, keeps_self (k a)) → keeps_self (m ≫= k).
Proof.
  intros Hm Hk rt. rewrite bind_run. specialize (Hm rt).
  destruct (m rt) as [[a|e] rt1]; simpl in *; [|done].
  by rewrite (Hk a rt1).
Qed.

Ltac keeps_self_steps :=
  repeat first
    [ apply keeps_self_ret | apply keeps_self_raise | apply keeps_self_lift_exc
    | apply keeps_self_get | apply keeps_self_with_generator
    | apply keeps_self_bind; [|intros ?] ].

Lemma keeps_self_cir_forward (emb : Tensor3 scalar) (mask : Tensor2 bool)
    (text : Tensor2 scalar) : keeps_self (_cir_forward emb mask text).
Proof. unfold _cir_forward. keeps_self_steps. Qed.

Lemma keeps_self_cp_forward (emb : Tensor3 scalar) (mask : Tensor2 bool)
    (d : option EncoderInputDict) : keeps_self (_cp_forward emb mask d).
Proof. unfold _cp_forward. keeps_self_steps. destruct d; keeps_self_steps. Qed.

Lemma keeps_self_precompute_embeddings (images : list (list Image))
    (texts : list (list Text)) : keeps_self (precompute_embeddings images texts).
Proof. unfold precompute_embeddings. keeps_self_steps. Qed.

Lemma keeps_self_forward (task : Task) (args : TaskArgs) : keeps_self (forward task args).
Proof.
  unfold forward, forward_.
  repeat (rewrite lookup_insert; case_decide; simplify_eq);
    rewrite ?lookup_empty; try apply keeps_self_raise;
    destruct args; simpl;
    auto using keeps_self_raise, keeps_self_cir_forward, keeps_self_cp_forward,
      keeps_self_precompute_embeddings.
Qed.

(** X1: a call of [forward], for any task tag and any arguments, leaves
    the module as it was, whether the call returns or raises: no
    parameter and not the mode is changed by a forward pass (only the
    random generator can move on). *)
Theorem forward_never_changes_the_module
    (task : Task) (args : TaskArgs) (rt : Runtime) :
  self (forward task args rt).2 = self rt.
Proof. exact (keeps_self_forward task args rt). Qed.
End module_kept.

(** ** Evaluation mode *)

Section evaluation_mode.
Context `{ItemEncoderSig}.

Lemma encoder_layers_eval (ws : list LayerParams) (mask : list (list bool))
    (x : list (list (list scalar))) (g g' : Generator) :
  (encoder_layers ws false mask x g).2 = g ∧
  (encoder_layers ws false mask x g).1 = (encoder_layers ws false mask x g').1.
Proof. revert x. induction ws as [|w ws IH]; intros x; simpl; [done|apply IH]. Qed.

Lemma TransformerEncoder_forward_eval (enc : TransformerEncoder)
    (src : Tensor3 scalar) (msk : Tensor2 bool) (g g' : Generator) :
  (TransformerEncoder_forward enc false src msk g).2 = g ∧
  (TransformerEncoder_forward enc false src msk g).1 =
  (TransformerEncoder_forward enc false src msk g').1.
Proof.
  unfold TransformerEncoder_forward. repeat case_decide; try done.
  rewrite !bind_get.
  destruct (encoder_layers_eval (layers enc) (data2 msk) (data3 src) g g') as [Hg Hout].
  destruct (encoder_layers_eval (layers enc) (data2 msk) (data3 src) g' g) as [Hg' _].
  destruct (encoder_layers _ _ _ _ g) as [out1 g1].
  destruct (encoder_layers _ _ _ _ g') as [out2 g2].
  simpl in *. by subst.
Qed.

Lemma Sequential_forward_eval (mods : list Module) (x : Tensor2 scalar) (g g' : Generator) :
  (Sequential_forward mods false x g).2 = g ∧
  (Sequential_forward mods false x g).1 = (Sequential_forward mods false x g').1.
Proof.
  revert x. induction mods as [|md mods IH]; intros x; simpl; [done|].
  rewrite !bind_run. destruct md as [p|l]; simpl.
  - apply IH.
  - unfold lift_exc. destruct (Linear_forward l x); [apply IH|done].
Qed.

Lemma attend_and_pool_eval (src : Tensor3 scalar) (msk : Tensor2 bool)
    (head : list Module) (rt : Runtime) (g : Generator) :
  training (self rt) = false →
  (attend_and_pool src msk head rt).2 = rt ∧
  (attend_and_pool src msk head (mkRuntime (self rt) g)).1 =
  (attend_and_pool src msk head rt).1.
Proof.
  intros Heval. unfold attend_and_pool. rewrite !bind_get, !(bind_run (with_generator _)).
  rewrite !with_generator_run. simpl. rewrite Heval.
  destruct (TransformerEncoder_forward_eval (transformer_encoder (self rt)) src msk
              (generator rt) g) as [Hg Hout].
  destruct (TransformerEncoder_forward_eval (transformer_encoder (self rt)) src msk
              g (generator rt)) as [Hg' _].
  destruct (TransformerEncoder_forward _ _ _ _ (generator rt)) as [r1 g1].
  destruct (TransformerEncoder_forward _ _ _ _ g) as [r2 g2].
  simpl in *. subst g1 g2 r2.
  destruct r1 as [out|e]; [|by rewrite runtime_eta].
  rewrite !(bind_run (lift_exc _)). unfold lift_exc.
  destruct (select_pos0 out) as [pooled|e]; [|by rewrite runtime_eta].
  rewrite !with_generator_run. simpl.
  destruct (Sequential_forward_eval head pooled (generator rt) g) as [Hs Hr].
  by rewrite Hs, Hr, runtime_eta.
Qed.

(** X2: in evaluation mode the complementary-item-retrieval path, and
    the compatibility path when no [encoder_input_dict] is given, leave the
    module and the random generator exactly as they were, and their
    result (value or exception) does not depend on the state of the
    generator. *)
Theorem forward_paths_pure_in_evaluation_mode
    (rt : Runtime) (emb : Tensor3 scalar) (mask : Tensor2 bool) (text : Tensor2 scalar) :
  training (self rt) = false →
  (_cir_forward emb mask text rt).2 = rt ∧
  (_cp_forward emb mask None rt).2 = rt ∧
  ∀ g, (_cir_forward emb mask text (mkRuntime (self rt) g)).1
       = (_cir_forward emb mask text rt).1 ∧
       (_cp_forward emb mask None (mkRuntime (self rt) g)).1
       = (_cp_forward emb mask None rt).1.
Proof.
  intros Heval.
  assert (Hcir : ∀ g, (_cir_forward emb mask text rt).2 = rt ∧
            (_cir_forward emb mask text (mkRuntime (self rt) g)).1
            = (_cir_forward emb mask text rt).1).
  { intros g. unfold _cir_forward. rewrite !bind_get. simpl.
    destruct (cat2_dim1 (expand_B _ _) text) as [pool|e]; [|done].
    rewrite !bind_lift_exc_ok.
    destruct (cat3_dim1 (unsqueeze1 pool) emb) as [src|e]; [|done].
    rewrite !bind_lift_exc_ok.
    destruct (cat2_dim1 (full_B_1 _ false) mask) as [msk|e]; [|done].
    rewrite !bind_lift_exc_ok.
    exact (attend_and_pool_eval src msk (cir_ffn (self rt)) rt g Heval). }
  assert (Hcp : ∀ g, (_cp_forward emb mask None rt).2 = rt ∧
            (_cp_forward emb mask None (mkRuntime (self rt) g)).1
            = (_cp_forward emb mask None rt).1).
  { intros g. unfold _cp_forward. rewrite !bind_get, !bind_ret_l. simpl.
    destruct (cat3_dim1 (expand_B_1 _ _) emb) as [src|e]; [|done].
    rewrite !bind_lift_exc_ok.
    destruct (cat2_dim1 (full_B_1 _ false) mask) as [msk|e]; [|done].
    rewrite !bind_lift_exc_ok.
    exact (attend_and_pool_eval src msk (cp_ffn (self rt)) rt g Heval). }
  split; [apply (Hcir (generator rt))|]. split; [apply (Hcp (generator rt))|].
  intros g. split; [apply Hcir | apply Hcp].
Qed.

(** X3: the head of the retrieval path holds no dropout: on a model of
    the architecture of [__init__] it computes the same thing in training
    mode as in evaluation mode and never touches the random generator. *)
Theorem cir_head_is_mode_independent
    (rt : Runtime) (training : bool) (states : Tensor2 scalar) :
  OutfitX_wf (self rt) →
  with_generator (Sequential_forward (cir_ffn (self rt)) training states) rt
  = with_generator (Sequential_forward (cir_ffn (self rt)) false states) rt ∧
  (with_generator (Sequential_forward (cir_ffn (self rt)) training states) rt).2 = rt.
Proof.
  intros (_ & _ & _ & _ & _ & (W & Hcir & _)). rewrite Hcir, !with_generator_run. simpl.
  unfold mbind, M_bind, lift_exc. simpl.
  destruct (Linear_forward _ states); simpl; by rewrite runtime_eta.
Qed.
End evaluation_mode.

(** ** Shapes of the results, and shapes that are refused *)

Section result_shapes.
Context `{ItemEncoderSig}.

Lemma attend_and_pool_linear_head (rt : Runtime) (src : Tensor3 scalar) (msk : Tensor2 bool)
    (B S : nat) (l : Linear) :
  OutfitX_wf (self rt) → B ≠ 0 →
  shape3 src = (B, 1 + S, item_encoder_d_embed (item_encoder (self rt))) → wf3 src →
  shape2 msk = (B, 1 + S) → wf2 msk →
  in_features l = item_encoder_d_embed (item_encoder (self rt)) →
  ∃ states g',
    TransformerEncoder_forward (transformer_encoder (self rt)) (training (self rt))
      src msk (generator rt) = (Ok states, g') ∧
    length (data3 states) = B ∧
    (training (self rt) = false → g' = generator rt) ∧
    attend_and_pool src msk [LinearM l] rt =
    (Ok (T2 B (out_features l)
            (Linear_row l <$> ((λ row, default [] (head row)) <$> data3 states))),
     mkRuntime (self rt) g').
Proof.
  intros (_ & _ & Hdm & Hlayers & _ & _) HB0 [= HB HS HD] [Hlen _] [= HmB HmS] [Hlenm _] Hin.
  pose proof (TransformerEncoder_forward_ok (transformer_encoder (self rt))
                (training (self rt)) src msk (generator rt) Hlayers) as Henc.
  specialize (Henc ltac:(congruence) ltac:(unfold shape2; congruence) ltac:(congruence)).
  rewrite Henc.
  set (res := encoder_layers _ _ _ _ _).
  exists (T3 (dimB3 src) (dimL3 src) (dimD3 src) res.1), res.2.
  split; [done|]. split; [|split].
  - simpl. subst res. rewrite length_encoder_layers; congruence.
  - intros Heval. subst res. rewrite Heval.
    by destruct (encoder_layers_eval (layers (transformer_encoder (self rt)))
                   (data2 msk) (data3 src) (generator rt) (generator rt)) as [-> _].
  - unfold attend_and_pool. rewrite bind_get, bind_run, with_generator_run, Henc.
    simpl. unfold select_pos0. simpl. rewrite decide_False by lia.
    unfold mbind, M_bind, lift_exc, Linear_forward. simpl.
    rewrite decide_True by congruence. simpl.
    unfold with_generator, zoom. simpl. by rewrite HB.
Qed.

(** X4: on every valid input whose batch is not empty the retrieval
    path returns, and its result has as many columns as [cfg.d_embed]
    says, for every outfit length
    and also when [cfg.d_embed] is not the dimension of the item
    encoder; the text embedding has to bring the columns that the image
    placeholder of [d_embed // 2] entries leaves open. *)
Theorem cir_forward_output_width_is_cfg_d_embed
    (rt : Runtime) (emb : Tensor3 scalar) (mask : Tensor2 bool) (text : Tensor2 scalar)
    (B L : nat) :
  let D := item_encoder_d_embed (item_encoder (self rt)) in
  OutfitX_wf (self rt) → B ≠ 0 →
  shape3 emb = (B, L, D) → wf3 emb →
  shape2 mask = (B, L) → wf2 mask →
  shape2 text = (B, D - Nat.div D 2) → wf2 text →
  ∃ out g',
    _cir_forward emb mask text rt = (Ok out, mkRuntime (self rt) g') ∧
    shape2 out = (B, cfg_d_embed (cfg (self rt))) ∧ wf2 out.
Proof.
  intros D Hwfm HB0 Hemb Hwf Hmask Hwfmask Htext Hwft. subst D.
  pose proof Hwfm as (_ & Himg & _ & _ & _ & (W & Hcir & HW & _)).
  set (D := item_encoder_d_embed (item_encoder (self rt))) in *.
  assert (Hle : Nat.div D 2 ≤ D) by (apply Nat.Div0.div_le_upper_bound; lia).
  rewrite <- Himg in Htext, Hle.
  destruct (cir_forward_attend rt emb mask text B L D Hemb Hwf Hmask Hwfmask Htext Hwft Hle)
    as (Hsrc & Hrun).
  rewrite Hrun, Hcir. clear Hrun.
  set (src := T3 B (1 + L) D _) in *. set (msk := T2 B (1 + L) _).
  destruct (attend_and_pool_linear_head rt src msk B L
              (mkLinear D (cfg_d_embed (cfg (self rt))) W None) Hwfm HB0 eq_refl Hsrc
              eq_refl
              (wf2_cons_column B L false mask Hmask Hwfmask) eq_refl)
    as (states & g' & _ & Hlen & _ & ->).
  eexists _, g'. split; [reflexivity|]. split; [done|]. split; simpl.
  - by rewrite !length_fmap.
  - apply Forall_fmap, Forall_fmap, Forall_forall. intros row _. simpl.
    unfold Linear_row. simpl. by rewrite length_fmap.
Qed.

(** X5: on every valid input whose batch is not empty the compatibility
    path returns one logit per outfit, shape [B, 1]; in evaluation mode
    the result fills that
    shape and the random generator is where it was. *)
Theorem cp_forward_returns_one_logit_per_outfit
    (rt : Runtime) (emb : Tensor3 scalar) (mask : Tensor2 bool) (B L : nat) :
  OutfitX_wf (self rt) → B ≠ 0 →
  shape3 emb = (B, L, item_encoder_d_embed (item_encoder (self rt))) → wf3 emb →
  shape2 mask = (B, L) → wf2 mask →
  ∃ out rt',
    _cp_forward emb mask None rt = (Ok out, rt') ∧
    shape2 out = (B, 1) ∧
    (training (self rt) = false → wf2 out ∧ rt' = rt).
Proof.
  intros Hwfm HB0 Hemb Hwf Hmask Hwfmask.
  pose proof Hwfm as (Htok & _ & Hdm & Hlayers & (p & w & b & Hcp & Hw) & _).
  destruct (cp_forward_attend rt emb mask B L _ Hemb Hwf Hmask Hwfmask Htok)
    as (Hsrc & Hrun).
  rewrite Hrun. clear Hrun.
  pose proof (wf2_cons_column B L false mask Hmask Hwfmask) as Hwfmsk.
  set (src := T3 B (1 + L) _ _) in *. set (msk := T2 B (1 + L) _) in *.
  pose proof (TransformerEncoder_forward_ok (transformer_encoder (self rt))
                (training (self rt)) src msk (generator rt) Hlayers (eq_sym Hdm) eq_refl
                HB0)
    as Henc.
  unfold attend_and_pool. rewrite bind_get, bind_run, with_generator_run, Henc.
  set (res := encoder_layers _ _ _ _ _). simpl.
  unfold select_pos0. simpl. rewrite bind_lift_exc_ok, Hcp, with_generator_run. simpl.
  unfold Dropout_forward. destruct (training (self rt)) eqn:Hmode.
  - unfold mbind, M_bind, mret, M_ret, get, put, lift_exc, Linear_forward. simpl.
    rewrite decide_True by done. simpl. eexists _, _. split; [reflexivity|]. by split.
  - unfold mbind, M_bind, mret, M_ret, lift_exc, Linear_forward. simpl.
    rewrite decide_True by done. simpl. eexists _, _. split; [reflexivity|].
    split; [done|]. intros _. split; [split; simpl|].
    + rewrite !length_fmap. subst res. rewrite length_encoder_layers.
      * by destruct Hsrc.
      * destruct Hsrc as [-> _]. by destruct Hwfmsk as [-> _].
    + apply Forall_fmap, Forall_fmap, Forall_forall. by intros row _.
    + subst res.
      destruct (encoder_layers_eval (layers (transformer_encoder (self rt)))
                  (data2 msk) (data3 src) (generator rt) (generator rt)) as [-> _].
      apply runtime_eta.
Qed.

Lemma cat3_dim1_inv {A} (a b : Tensor3 A) :
  match cat3_dim1 a b with
  | Ok _ => dimB3 a = dimB3 b ∧ dimD3 a = dimD3 b
  | Raise e => ¬ (dimB3 a = dimB3 b ∧ dimD3 a = dimD3 b) ∧ ∃ msg, e = RuntimeError msg
  end.
Proof. unfold cat3_dim1. case_decide; [done|]. split; [done|by eexists]. Qed.

Lemma cat2_dim1_inv {A} (a b : Tensor2 A) :
  match cat2_dim1 a b with
  | Ok t => dimB2 a = dimB2 b ∧ dimD2 t = dimD2 a + dimD2 b
  | Raise e => dimB2 a ≠ dimB2 b ∧ ∃ msg, e = RuntimeError msg
  end.
Proof. unfold cat2_dim1. case_decide; [done|]. split; [done|by eexists]. Qed.

(** X6: a tensor that does not fit is refused by [torch.cat] before the
    attention stack runs: an outfit whose feature dimension is not the
    length of the pooling vector, a mask or a text embedding for another
    batch size.  The call raises [RuntimeError] and module and random
    generator are as before, in training mode too. *)
Theorem forward_paths_refuse_mismatched_shapes
    (rt : Runtime) (emb : Tensor3 scalar) (mask : Tensor2 bool) (text : Tensor2 scalar) :
  (dimD3 emb ≠ length (outfit_token (self rt)) ∨ dimB2 mask ≠ dimB3 emb →
   ∃ msg, _cp_forward emb mask None rt = (Raise (RuntimeError msg), rt)) ∧
  (dimB2 text ≠ dimB3 emb ∨
   length (target_item_image_emb (self rt)) + dimD2 text ≠ dimD3 emb ∨
   dimB2 mask ≠ dimB3 emb →
   ∃ msg, _cir_forward emb mask text rt = (Raise (RuntimeError msg), rt)).
Proof.
  split.
  - intros Hbad. unfold _cp_forward. rewrite bind_get, bind_ret_l.
    pose proof (cat3_dim1_inv (expand_B_1 (outfit_token (self rt)) (dimB3 emb)) emb) as H3.
    destruct (cat3_dim1 _ emb) as [src|e].
    + rewrite bind_lift_exc_ok.
      pose proof (cat2_dim1_inv (full_B_1 (dimB3 emb) false) mask) as H2.
      destruct (cat2_dim1 _ mask) as [msk|e].
      * exfalso. simpl in *. destruct H3, H2, Hbad; congruence.
      * destruct H2 as (_ & msg & ->). by exists msg.
    + destruct H3 as (_ & msg & ->). by exists msg.
  - intros Hbad. unfold _cir_forward. rewrite bind_get.
    pose proof (cat2_dim1_inv (expand_B (target_item_image_emb (self rt)) (dimB3 emb))
                  text) as H1.
    destruct (cat2_dim1 _ text) as [pool|e]; [|destruct H1 as (_ & msg & ->); by exists msg].
    rewrite bind_lift_exc_ok.
    pose proof (cat3_dim1_inv (unsqueeze1 pool) emb) as H3.
    destruct (cat3_dim1 _ emb) as [src|e]; [|destruct H3 as (_ & msg & ->); by exists msg].
    rewrite bind_lift_exc_ok.
    pose proof (cat2_dim1_inv (full_B_1 (dimB3 emb) false) mask) as H2.
    destruct (cat2_dim1 _ mask) as [msk|e]; [|destruct H2 as (_ & msg & ->); by exists msg].
    exfalso. simpl in *. destruct H1 as [H1 H1'], H3, H2, Hbad as [?|[?|?]]; congruence.
Qed.

(** X7: with an odd [d_embed] the image placeholder has
    [d_embed // 2] entries, so a text embedding of that same width (the
    width that the source notes at [_cir_forward]) leaves one column
    missing and the retrieval path raises [RuntimeError]. *)
Theorem cir_forward_odd_d_embed_refuses_half_width_text
    (rt : Runtime) (emb : Tensor3 scalar) (mask : Tensor2 bool) (text : Tensor2 scalar) :
  let D := item_encoder_d_embed (item_encoder (self rt)) in
  OutfitX_wf (self rt) → D mod 2 = 1 →
  dimD3 emb = D → dimD2 text = Nat.div D 2 →
  ∃ msg, _cir_forward emb mask text rt = (Raise (RuntimeError msg), rt).
Proof.
  intros D (_ & Himg & _) Hodd Hemb Htext. fold D in Himg.
  unfold _cir_forward. rewrite bind_get.
  pose proof (cat2_dim1_inv (expand_B (target_item_image_emb (self rt)) (dimB3 emb))
                text) as H1.
  destruct (cat2_dim1 _ text) as [pool|e]; [|destruct H1 as (_ & msg & ->); by exists msg].
  rewrite bind_lift_exc_ok.
  pose proof (cat3_dim1_inv (unsqueeze1 pool) emb) as H3.
  destruct (cat3_dim1 _ emb) as [src|e]; [|destruct H3 as (_ & msg & ->); by exists msg].
  exfalso. destruct H1 as [_ H1], H3 as [_ H3]. simpl in H1, H3.
  rewrite H1, Himg, Htext, Hemb in H3. pose proof (Nat.div_mod_eq D 2). lia.
Qed.
End result_shapes.

(** ** Precomputing on longer and on empty sequences *)

Section precompute_edges.
Context `{ItemEncoderSig}.

(** X8: [precompute_embeddings] keeps position 0 of what the item
    encoder returns and nothing else: for sequences of more than one item
    the embeddings of the later items are dropped without a sign, for
    empty sequences the slice raises [IndexError], and an exception of
    the encoder is passed on. *)
Theorem precompute_embeddings_keeps_first_position
    (rt : Runtime) (images : list (list Image)) (texts : list (list Text)) :
  match item_encoder_call_positional (item_encoder (self rt)) (training (self rt))
          images texts (generator rt) with
  | (Ok embeddings, g) =>
      (dimL3 embeddings = 0 →
       precompute_embeddings images texts rt = (Raise IndexError, mkRuntime (self rt) g)) ∧
      (dimL3 embeddings ≠ 0 →
       ∃ out,
         precompute_embeddings images texts rt = (Ok out, mkRuntime (self rt) g) ∧
         shape2 out = (dimB3 embeddings, dimD3 embeddings) ∧
         length (data2 out) = length (data3 embeddings) ∧
         ∀ b first rest, data3 embeddings !! b = Some (first :: rest) →
                         data2 out !! b = Some first)
  | (Raise e, g) =>
      precompute_embeddings images texts rt = (Raise e, mkRuntime (self rt) g)
  end.
Proof.
  rewrite precompute_embeddings_run. simpl.
  destruct (item_encoder_call_positional _ _ _ _ _) as [[embeddings|e] g]; simpl; [|done].
  unfold select_pos0. split.
  - intros HL. by rewrite decide_True.
  - intros HL. rewrite decide_False by done. eexists. split; [reflexivity|].
    split; [done|]. simpl. split; [by rewrite length_fmap|].
    intros b first rest Hb. by rewrite list_lookup_fmap, Hb.
Qed.
End precompute_edges.

(** ** The image encoder writes to its caller's dict *)

Section clip_kargs.
Context `{CLIPSig}.

(** X9: [CLIPImageEncoder._forward] sets ['return_tensors'] to ['pt'] in
    the [processor_kargs] dict of its caller: after the call, whether it
    returned or raised, the caller's dict holds that entry (a value the
    caller had put there is replaced) and every other entry is as
    before; the processor is called with exactly that dict. *)
Theorem CLIPImageEncoder_forward_writes_return_tensors
    (images : list ImageInput) (kargs : gmap string string) :
  let kargs' := <["return_tensors" := "pt"]> kargs in
  (CLIPImageEncoder_forward images (Some kargs)).2 = Some kargs' ∧
  kargs' !! "return_tensors" = Some "pt" ∧
  (∀ key, key ≠ "return_tensors" → kargs' !! key = kargs !! key) ∧
  (CLIPImageEncoder_forward images (Some kargs)).1 =
  match CLIPImageProcessor_call images kargs' with
  | Ok transformed_images => CLIPVisionModelWithProjection_call transformed_images
  | Raise e => Raise e
  end.
Proof.
  intros kargs'. unfold CLIPImageEncoder_forward. rewrite bind_get. simpl.
  unfold mbind, M_bind, put, lift_exc, mret, M_ret. simpl. fold kargs'.
  split; [|split; [apply lookup_insert_eq|split]].
  - destruct (CLIPImageProcessor_call images kargs') as [pixels|e]; [|done].
    by destruct (CLIPVisionModelWithProjection_call pixels).
  - intros key Hkey. by apply lookup_insert_ne.
  - destruct (CLIPImageProcessor_call images kargs') as [pixels|e]; [|done].
    by destruct (CLIPVisionModelWithProjection_call pixels).
Qed.
End clip_kargs.

(** ** The other ways through [hook_after_setup] *)

Section setup_cases.
Context `{DistributedTrainerSig}.

(** X10: besides the refusal of a test on several workers,
    [hook_after_setup] stores the device type and then: in mode ['test']
    on at most one worker it loads the best-recall checkpoint of the
    retrieval task, weights only; in mode ['train-valid'], on any number
    of workers, the best-AUC checkpoint of the compatibility task; in any
    other mode, ['custom'] among them, it raises [ValueError] and loads
    nothing. *)
Theorem hook_after_setup_by_run_mode (tr : FillInTheBlankTrainer) :
  let tr' := set_device_type (if torch_cuda_is_available then "cuda" else "cpu") tr in
  (run_mode tr = "test" → (world_size tr ≤ 1)%Z →
   hook_after_setup tr =
   load_checkpoint (checkpoint_dir_parent tr +:+ "/complementary_item_retrieval/" +:+
                    model_name tr +:+ "_best_Recall@1.pth") true tr') ∧
  (run_mode tr = "train-valid" →
   hook_after_setup tr =
   load_checkpoint (checkpoint_dir_parent tr +:+ "/compatibility_prediction/" +:+
                    model_name tr +:+ "_best_AUC.pth") true tr') ∧
  (run_mode tr ≠ "test" → run_mode tr ≠ "train-valid" →
   hook_after_setup tr = (Raise (ValueError "未知的运行模式"), tr')).
Proof.
  intros tr'. unfold hook_after_setup. rewrite bind_get, bind_run. unfold put. simpl.
  fold tr'. split; [|split].
  - intros Hmode Hworld. rewrite Hmode. simpl.
    rewrite bool_decide_eq_false_2 by lia. simpl.
    rewrite bind_ret_l. done.
  - intros Hmode. rewrite Hmode. simpl. rewrite andb_false_r.
    rewrite bind_ret_l. done.
  - intros Htest Htrain.
    apply String.eqb_neq in Htest, Htrain. rewrite Htest, Htrain, andb_false_r.
    done.
Qed.
End setup_cases.

(** ** Which files the cache merge opens, and what the mapping holds *)

Lemma insert_sorted_Permutation (x : string) (l : list string) :
  insert_sorted x l ≡ₚ x :: l.
Proof.
  induction l as [|y l IH]; simpl; [done|].
  destruct (String.leb x y); [done|]. rewrite IH. apply Permutation_swap.
Qed.

Lemma sorted_Permutation (l : list string) : sorted l ≡ₚ l.
Proof.
  induction l as [|x l IH]; simpl; [done|].
  by rewrite insert_sorted_Permutation, IH.
Qed.

Lemma insert_sorted_ascending (x : string) (l : list string) :
  ascending l → ascending (insert_sorted x l).
Proof.
  induction l as [|y l IH]; intros Hasc; simpl; [done|].
  destruct (String.leb x y) eqn:Hxy; [by split|].
  assert (Hyx : String.leb y x = true).
  { destruct (String.leb_total x y); congruence. }
  destruct l as [|z l]; simpl in *; [by split|].
  destruct Hasc as [Hyz Hasc]. specialize (IH Hasc).
  destruct (String.leb x z); simpl in *; by split.
Qed.

Lemma sorted_ascending (l : list string) : ascending (sorted l).
Proof. induction l as [|x l IH]; simpl; [done|]. by apply insert_sorted_ascending. Qed.

Lemma string_app_nil (s : string) : "" +:+ s = s.
Proof. reflexivity. Qed.

Lemma string_app_cons (a : Ascii.ascii) (s t : string) :
  String a s +:+ t = String a (s +:+ t).
Proof. reflexivity. Qed.

Lemma string_prefix_app (p s : string) : String.prefix p (p +:+ s) = true.
Proof.
  induction p as [|a p IH]; [by destruct s|].
  rewrite string_app_cons. simpl. by destruct (Ascii.ascii_dec a a).
Qed.

Lemma string_prefix_inv (p s : string) :
  String.prefix p s = true → ∃ rest, s = p +:+ rest.
Proof.
  revert s. induction p as [|a p IH]; intros s Hp; [by exists s|].
  destruct s as [|b s]; simpl in Hp; [done|].
  destruct (Ascii.ascii_dec a b) as [->|]; [|done].
  destruct (IH s Hp) as [rest ->]. exists rest. by rewrite string_app_cons.
Qed.

Lemma string_length_app (s t : string) :
  String.length (s +:+ t) = String.length s + String.length t.
Proof.
  induction s as [|a s IH]; [done|]. rewrite string_app_cons. simpl. by rewrite IH.
Qed.

Lemma string_substring_all (s : string) :
  String.substring 0 (String.length s) s = s.
Proof. induction s as [|b s IH]; simpl; [done|by f_equal]. Qed.

Lemma string_substring_drop (p s : string) (m : nat) :
  String.substring (String.length p) m (p +:+ s) = String.substring 0 m s.
Proof.
  induction p as [|a p IH]; [done|]. rewrite string_app_cons. simpl. exact IH.
Qed.

Lemma string_substring_drop_prefix (p s : string) :
  String.substring (String.length p) (String.length (p +:+ s) - String.length p) (p +:+ s)
  = s.
Proof.
  rewrite string_substring_drop, string_length_app.
  replace (String.length p + String.length s - String.length p)
    with (String.length s) by lia.
  apply string_substring_all.
Qed.

Lemma string_substring_suffix (s t : string) :
  String.substring (String.length (s +:+ t) - String.length t) (String.length t) (s +:+ t)
  = t.
Proof.
  rewrite string_length_app, Nat.add_sub, string_substring_drop.
  apply string_substring_all.
Qed.

Lemma string_substring_split (n : nat) (s : string) :
  n ≤ String.length s →
  s = String.substring 0 n s +:+ String.substring n (String.length s - n) s.
Proof.
  revert n. induction s as [|a s IH]; intros n Hn.
  - simpl in Hn. by replace n with 0 by lia.
  - destruct n as [|n].
    + rewrite Nat.sub_0_r, string_substring_all. by destruct s.
    + simpl. rewrite string_app_cons. f_equal. apply IH. simpl in Hn. lia.
Qed.

Lemma ends_with_spec (suffix s : string) :
  ends_with suffix s = true ↔ ∃ mid, s = mid +:+ suffix.
Proof.
  unfold ends_with. rewrite andb_true_iff, Nat.leb_le, String.eqb_eq. split.
  - intros [Hle Hsub].
    exists (String.substring 0 (String.length s - String.length suffix) s).
    pose proof (string_substring_split (String.length s - String.length suffix) s
                  ltac:(lia)) as Hsplit.
    replace (String.length s - (String.length s - String.length suffix))
      with (String.length suffix) in Hsplit by lia.
    by rewrite Hsub in Hsplit.
  - intros [mid ->]. split; [rewrite string_length_app; lia|].
    apply string_substring_suffix.
Qed.

(** [glob_match] is the pattern [prefix*.pkl]: a name matches exactly when
    it is the prefix, then anything, then [.pkl]. *)
Lemma glob_match_is_prefix_star_pkl (prefix name : string) :
  glob_match prefix name = true ↔ ∃ mid, name = prefix +:+ mid +:+ ".pkl".
Proof.
  unfold glob_match. rewrite andb_true_iff. split.
  - intros [Hp Hs]. apply string_prefix_inv in Hp as [rest ->].
    rewrite string_substring_drop_prefix in Hs.
    apply ends_with_spec in Hs as [mid ->]. by exists mid.
  - intros [mid ->]. split; [apply string_prefix_app|].
    rewrite string_substring_drop_prefix. apply ends_with_spec. by exists mid.
Qed.

Section cache_mapping.
Context `{ItemEncoderSig}.

Lemma load_embeddings_run (d : Directory) (prefix : string) (shards : list Shard) :
  let files := sorted (filter (λ name, glob_match prefix name = true) (entries d).*1) in
  Forall2 (λ file shard, lookup_entry (entries d) file = Some shard) files shards →
  files ≠ [] →
  load_embeddings prefix d =
  (match np_concatenate_axis0 (shard_embeddings <$> shards) with
   | Ok _ => Ok (dict_of_pairs (zip (concat (shard_ids <$> shards))
                                    (concat (data2 <$> (shard_embeddings <$> shards)))))
   | Raise e => Raise e
   end,
   mkDirectory (entries d) (opened d ++ files)).
Proof.
  intros files Hres Hsome. unfold load_embeddings. rewrite bind_run.
  unfold fmap at 1, M_fmap, glob. fold files.
  rewrite decide_False by done. rewrite bind_run.
  rewrite (load_embeddings_loop_run files shards [] [] d Hres). simpl.
  rewrite bind_run. unfold lift_exc.
  destruct (np_concatenate_axis0 (shard_embeddings <$> shards)) as [all|e] eqn:Hcat;
    [|done].
  unfold np_concatenate_axis0 in Hcat.
  destruct (shard_embeddings <$> shards) as [|a0 arrays] eqn:Harr; [done|].
  case_decide; [|done]. by injection Hcat as <-.
Qed.

(** X11: for a prefix that [Path.glob] takes literally (no pattern
    character, no path separator): when [load_embeddings] returns a
    mapping, it has opened the files of the directory whose name is the
    prefix, then anything, then [.pkl] (the name [prefix.pkl] and names
    without a rank among them), each once and in ascending order of the
    names; it has opened no other file and changed no entry of the
    directory. *)
Theorem load_embeddings_opens_the_matching_files_in_name_order
    (d d' : Directory) (prefix : string) (result : gmap Z (list scalar)) :
  literal_prefix prefix →
  load_embeddings prefix d = (Ok result, d') →
  ∃ files,
    files ≠ [] ∧
    files ≡ₚ filter (λ name, glob_match prefix name = true) (entries d).*1 ∧
    (∀ name, name ∈ files ↔
             name ∈ (entries d).*1 ∧ ∃ mid, name = prefix +:+ mid +:+ ".pkl") ∧
    ascending files ∧
    d' = mkDirectory (entries d) (opened d ++ files).
Proof.
  intros _ Hload.
  exists (sorted (filter (λ name, glob_match prefix name = true) (entries d).*1)).
  destruct (glob_files_resolve d prefix) as [shards Hres].
  destruct (decide (sorted (filter (λ name, glob_match prefix name = true)
                              (entries d).*1) = [])) as [Hnone|Hsome].
  { unfold load_embeddings in Hload. rewrite bind_run in Hload.
    unfold fmap at 1, M_fmap, glob in Hload. simpl in Hload.
    rewrite Hnone in Hload. simpl in Hload. discriminate. }
  split; [exact Hsome|]. split; [apply sorted_Permutation|].
  split; [|split; [apply sorted_ascending|]].
  - intros name.
    rewrite sorted_Permutation, list_elem_of_filter, glob_match_is_prefix_star_pkl.
    tauto.
  - rewrite (load_embeddings_run d prefix shards Hres Hsome) in Hload.
    by injection Hload as _ <-.
Qed.

Lemma elem_of_concat_2 {A} (x : A) (l : list A) (ls : list (list A)) :
  x ∈ l → l ∈ ls → x ∈ concat ls.
Proof.
  intros Hx Hl. induction ls as [|l' ls IH]; [by apply elem_of_nil in Hl|].
  simpl. apply elem_of_app. apply elem_of_cons in Hl as [->|Hl]; auto.
Qed.

Lemma zip_concat {A B} (ls : list (list A)) (ks : list (list B)) :
  Forall2 (λ l k, length l = length k) ls ks →
  zip (concat ls) (concat ks) = concat (zip_with zip ls ks).
Proof.
  induction 1 as [|l k ls ks Hlen _ IH]; simpl; [done|].
  by rewrite zip_with_app, IH.
Qed.

Lemma dict_of_pairs_is_Some (pairs : list (Z * list scalar)) (k : Z)
    (d0 : gmap Z (list scalar)) :
  is_Some (foldl (λ d kv, <[kv.1 := kv.2]> d) d0 pairs !! k) ↔
  k ∈ pairs.*1 ∨ is_Some (d0 !! k).
Proof.
  revert d0. induction pairs as [|[k' v'] pairs IH]; intros d0; simpl.
  - rewrite elem_of_nil. tauto.
  - rewrite IH, elem_of_cons, lookup_insert_is_Some. simpl.
    destruct (decide (k' = k)) as [->|]; intuition congruence.
Qed.

Lemma dict_of_pairs_NoDup_lookup (pairs : list (Z * list scalar)) (k : Z) (v : list scalar) :
  NoDup pairs.*1 → (k, v) ∈ pairs → dict_of_pairs pairs !! k = Some v.
Proof.
  intros Hnd Hin. apply list_elem_of_split in Hin as (l1 & l2 & ->).
  apply dict_of_pairs_last.
  rewrite fmap_app, fmap_cons in Hnd. apply NoDup_app in Hnd as (_ & _ & Hnd).
  by apply NoDup_cons in Hnd as [Hk _].
Qed.

(** X12: when every shard holds as many ids as rows and no id occurs
    twice, the mapping that [load_embeddings] returns sends each id of
    each shard to the row at the same place of the same shard, and its
    keys are exactly the ids of the shards. *)
Theorem load_embeddings_maps_each_id_to_its_row
    (d d' : Directory) (prefix : string) (shards : list Shard)
    (result : gmap Z (list scalar)) :
  Forall2 (λ file shard, lookup_entry (entries d) file = Some shard)
          (sorted (filter (λ name, glob_match prefix name = true) (entries d).*1))
          shards →
  load_embeddings prefix d = (Ok result, d') →
  Forall (λ s, length (shard_ids s) = length (data2 (shard_embeddings s))) shards →
  NoDup (concat (shard_ids <$> shards)) →
  (∀ s k id row,
     s ∈ shards → shard_ids s !! k = Some id →
     data2 (shard_embeddings s) !! k = Some row →
     result !! id = Some row) ∧
  (∀ id, is_Some (result !! id) ↔ id ∈ concat (shard_ids <$> shards)).
Proof.
  intros Hres Hload Haligned Hnd.
  destruct (decide (sorted (filter (λ name, glob_match prefix name = true)
                              (entries d).*1) = [])) as [Hnone|Hsome].
  { unfold load_embeddings in Hload. rewrite bind_run in Hload.
    unfold fmap at 1, M_fmap, glob in Hload. simpl in Hload.
    rewrite Hnone in Hload. simpl in Hload. discriminate. }
  rewrite (load_embeddings_run d prefix shards Hres Hsome) in Hload.
  destruct (np_concatenate_axis0 _) as [all|e]; [|discriminate].
  injection Hload as <- <-.
  set (idss := shard_ids <$> shards) in *.
  set (rowss := data2 <$> (shard_embeddings <$> shards)).
  assert (Hlens : Forall2 (λ l k, length l = length k) idss rowss).
  { subst idss rowss. rewrite <- list_fmap_compose.
    apply Forall2_fmap, Forall_Forall2_diag. exact Haligned. }
  assert (Hkeys : (zip (concat idss) (concat rowss)).*1 = concat idss).
  { clear -Hlens. apply fst_zip. rewrite !length_concat.
    induction Hlens as [|l k ls ks Hlk _ IH]; csimpl; lia. }
  split.
  - intros s k id row Hs Hid Hrow. apply dict_of_pairs_NoDup_lookup.
    + by rewrite Hkeys.
    + rewrite (zip_concat idss rowss Hlens).
      apply (elem_of_concat_2 _ (zip (shard_ids s) (data2 (shard_embeddings s)))).
      * apply list_elem_of_lookup. exists k. rewrite lookup_zip_with, Hid. simpl.
        by rewrite Hrow.
      * apply list_elem_of_lookup in Hs as [i Hs].
        apply list_elem_of_lookup. exists i. subst idss rowss.
        rewrite lookup_zip_with, !list_lookup_fmap, Hs. done.
  - intros id. unfold dict_of_pairs. rewrite dict_of_pairs_is_Some, Hkeys, lookup_empty.
    rewrite is_Some_alt. tauto.
Qed.
End cache_mapping.

(** ** The evaluation loop *)

Section ranking_edges.
Context `{Torch}.

Lemma length_broadcast_row {X Y} (l1 : list X) (l2 : list Y) :
  length l2 = 1 → length (y ← take 1 l2; (λ x, (x, y)) <$> l1) = length l1.
Proof.
  destruct l2 as [|y [|? ?]]; try done. intros _. simpl.
  by rewrite app_nil_r, length_fmap.
Qed.

Lemma count_equal_le (a b : list nat) (hits : nat) :
  count_equal a b = Ok hits → length b = length a ∨ length b = 1 → hits ≤ length a.
Proof.
  unfold count_equal, broadcast_batch. intros Hcount Hlen.
  repeat case_decide; simplify_eq; try lia.
  - etrans; [apply length_filter|]. rewrite length_zip_with. lia.
  - etrans; [apply length_filter|]. by rewrite length_broadcast_row.
Qed.

(** X13: the ranking refuses what [torch.cdist] and [torch.argmin]
    refuse: predictions and candidates of different widths and batch
    sizes that cannot be broadcast raise [RuntimeError], and an empty
    candidate set raises [IndexError]. *)
Theorem y_hats_index_of_refuses_bad_candidates (y_hats cands : Tensor3 scalar) :
  (dimD3 y_hats ≠ dimD3 cands →
   ∃ msg, y_hats_index_of y_hats cands = Raise (RuntimeError msg)) ∧
  (dimD3 y_hats = dimD3 cands → dimB3 y_hats ≠ dimB3 cands →
   dimB3 y_hats ≠ 1 → dimB3 cands ≠ 1 →
   ∃ msg, y_hats_index_of y_hats cands = Raise (RuntimeError msg)) ∧
  (dimD3 y_hats = dimD3 cands → dimB3 y_hats = dimB3 cands → dimL3 cands = 0 →
   y_hats_index_of y_hats cands = Raise IndexError).
Proof.
  unfold y_hats_index_of, torch_cdist, broadcast_batch. split; [|split].
  - intros HD. rewrite decide_False by done. by eexists.
  - intros HD HB H1 H2. rewrite decide_True by done. rewrite !decide_False by done.
    by eexists.
  - intros HD HB HC. rewrite !decide_True by done.
    unfold torch_argmin, squeeze1. simpl. by rewrite decide_True.
Qed.
End ranking_edges.

Section evaluation_loop.
Context `{DistributedTrainerSig}.

Lemma keeps_self_test_step (batch_dict : Batch) : keeps_self (test_step batch_dict).
Proof.
  unfold test_step. apply keeps_self_bind; [apply keeps_self_forward|intros y_hats].
  apply keeps_self_bind; [apply keeps_self_lift_exc|intros idx].
  apply keeps_self_bind; [apply keeps_self_lift_exc|intros hits].
  apply keeps_self_ret.
Qed.

Lemma keeps_self_test_loop (dt : option string) (batches : list Batch)
    (total correct : nat) :
  keeps_self (test_loop dt batches total correct).
Proof.
  revert total correct. induction batches as [|b batches IH]; intros total correct; simpl.
  - apply keeps_self_ret.
  - apply keeps_self_bind; [apply keeps_self_lift_exc|]. intros _.
    apply keeps_self_bind; [apply keeps_self_test_step|]. intros [n hits]. apply IH.
Qed.

(** X14: [test] switches the model to evaluation mode and runs the
    batches on it; whatever happens in the loop, the module is the one
    it was, in evaluation mode, and an exception of the loop is passed
    on.  When the loop has counted no row (an empty dataloader among
    others) the accuracy is a division by zero and [test] raises
    [ZeroDivisionError] without logging.  On a trainer whose
    [device_type] is still [None] ([hook_after_setup] has not run) and
    whose dataloader is not empty, [autocast] refuses the device type in
    the first step: [ValueError], before the model has seen a batch.
    With the device type ['cuda'] or ['cpu'] and one batch whose step
    completes, [test] logs the hits and the rows of that batch. *)
Theorem test_runs_in_evaluation_mode (tr : FillInTheBlankTrainer) :
  let rt0 := (train false (model tr)).2 in
  match test_loop (device_type tr) (test_dataloader tr) 0 0 rt0 with
  | (Ok (total, correct), rt') =>
      self rt' = self rt0 ∧ training (self rt') = false ∧
      test tr = if decide (total = 0)
                then (Raise ZeroDivisionError, set_model rt' tr)
                else log "info" (correct, total) (set_model rt' tr)
  | (Raise e, rt') =>
      self rt' = self rt0 ∧ training (self rt') = false ∧
      test tr = (Raise e, set_model rt' tr)
  end ∧
  (test_dataloader tr = [] → test tr = (Raise ZeroDivisionError, set_model rt0 tr)) ∧
  (test_dataloader tr ≠ [] → device_type tr = None →
   ∃ msg, test tr = (Raise (ValueError msg), set_model rt0 tr)) ∧
  (∀ batch_dict n hits rt',
     test_dataloader tr = [batch_dict] →
     device_type tr = Some "cuda" ∨ device_type tr = Some "cpu" →
     test_step batch_dict rt0 = (Ok (n, hits), rt') → n ≠ 0 →
     test tr = log "info" (hits, n) (set_model rt' tr)).
Proof.
  intros rt0.
  assert (Hrun : test tr =
    match test_loop (device_type tr) (test_dataloader tr) 0 0 rt0 with
    | (Ok (total, correct), rt') =>
        if decide (total = 0) then (Raise ZeroDivisionError, set_model rt' tr)
        else log "info" (correct, total) (set_model rt' tr)
    | (Raise e, rt') => (Raise e, set_model rt' tr)
    end).
  { subst rt0. unfold test. rewrite bind_run. unfold zoom at 1. simpl.
    rewrite bind_get, bind_run. unfold zoom. simpl.
    destruct (test_loop (device_type tr) (test_dataloader tr) 0 0 _)
      as [[[total correct]|e] rt']; simpl; [|done].
    by case_decide. }
  split; [|split; [|split]].
  - pose proof (keeps_self_test_loop (device_type tr) (test_dataloader tr) 0 0 rt0)
      as Hkeep.
    rewrite Hrun.
    destruct (test_loop (device_type tr) (test_dataloader tr) 0 0 rt0)
      as [[[total correct]|e] rt']; simpl in *; by rewrite Hkeep.
  - intros Hempty. rewrite Hrun, Hempty. simpl. done.
  - intros Hsome Hnone. rewrite Hrun, Hnone.
    destruct (test_dataloader tr) as [|batch_dict batches]; [done|]. simpl.
    by eexists.
  - intros batch_dict n hits rt' Hone Hdevice Hstep Hn. rewrite Hrun, Hone. simpl.
    assert (Henter : autocast_enter (device_type tr) = Ok tt)
      by (destruct Hdevice as [-> | ->]; reflexivity).
    rewrite Henter, bind_lift_exc_ok, bind_run, Hstep. simpl.
    by rewrite decide_False.
Qed.

(** X15: in one step of the loop the hits cannot exceed the rows that
    are counted when [answer_index] has one entry per prediction (or a
    single entry, which is compared with every prediction). *)
Theorem test_step_hits_at_most_rows
    (batch_dict : Batch) (rt rt' : Runtime) (n hits : nat) :
  test_step batch_dict rt = (Ok (n, hits), rt') →
  length (answer_index batch_dict) = n ∨ length (answer_index batch_dict) = 1 →
  hits ≤ n.
Proof.
  intros Hstep Hlen.
  unfold test_step in Hstep. rewrite bind_run in Hstep.
  destruct (forward _ _ rt) as [[y_hats|e] rt1]; [|discriminate].
  rewrite bind_run in Hstep. unfold lift_exc at 1 in Hstep.
  destruct (y_hats_index_of _ _) as [idx|e]; [|discriminate].
  rewrite bind_run in Hstep. unfold lift_exc in Hstep.
  destruct (count_equal idx _) as [h|e] eqn:Hcount; [|discriminate].
  injection Hstep as <- <- <-. by eapply count_equal_le.
Qed.
End evaluation_loop.

(** * The further statements on the integer instance *)

Section further_examples.
Import ZModel ZExtra.
#[local] Existing Instance ZTorch.
#[local] Existing Instance ZItemEncoder.
#[local] Existing Instance ZCLIP.
#[local] Existing Instance ZDistributedTrainer.

Lemma model_narrow_wf : OutfitX_wf (self model_narrow).
Proof. by apply OutfitX_init_wf. Qed.

Lemma forward_paths_pure_in_evaluation_mode_witness :
  training (self model_eval) = false ∧
  (_cir_forward outfit2 mask2 text1 model_eval).2 = model_eval ∧
  (_cp_forward outfit2 mask2 None model_eval).2 = model_eval ∧
  (_cir_forward outfit2 mask2 text1 (mkRuntime (self model_eval) 99)).1
  = (_cir_forward outfit2 mask2 text1 model_eval).1.
Proof.
  destruct (forward_paths_pure_in_evaluation_mode model_eval outfit2 mask2 text1 eq_refl)
    as (Hcir & Hcp & Hany).
  split; [reflexivity|]. split; [exact Hcir|]. split; [exact Hcp|].
  exact (proj1 (Hany 99)).
Defined.

Lemma cir_head_is_mode_independent_witness :
  OutfitX_wf (self model_train) ∧
  with_generator (Sequential_forward (cir_ffn (self model_train)) true states2) model_train
  = with_generator (Sequential_forward (cir_ffn (self model_train)) false states2)
      model_train.
Proof.
  split; [exact model_train_wf|].
  exact (proj1 (cir_head_is_mode_independent model_train true states2 model_train_wf)).
Defined.

(** With [cfg.d_embed = 2] the result has two columns. *)
Lemma cir_forward_output_width_is_cfg_d_embed_witness :
  (OutfitX_wf (self model_narrow) ∧ 1 ≠ 0 ∧ shape3 outfit2 = (1, 2, 4) ∧ wf3 outfit2 ∧
   shape2 mask2 = (1, 2) ∧ wf2 mask2 ∧ shape2 text1 = (1, 4 - Nat.div 4 2) ∧ wf2 text1) ∧
  ∃ out g',
    _cir_forward outfit2 mask2 text1 model_narrow
    = (Ok out, mkRuntime (self model_narrow) g') ∧
    shape2 out = (1, 2) ∧ wf2 out.
Proof.
  split.
  - by auto 10 using model_narrow_wf, wf3_outfit2, wf2_mask2, wf2_text1.
  - exact (cir_forward_output_width_is_cfg_d_embed model_narrow outfit2 mask2 text1 1 2
             model_narrow_wf ltac:(discriminate) eq_refl wf3_outfit2 eq_refl wf2_mask2
             eq_refl wf2_text1).
Defined.

Lemma cp_forward_returns_one_logit_per_outfit_witness :
  (OutfitX_wf (self model_eval) ∧ 1 ≠ 0 ∧ shape3 outfit2 = (1, 2, 4) ∧ wf3 outfit2 ∧
   shape2 mask2 = (1, 2) ∧ wf2 mask2) ∧
  ∃ out rt',
    _cp_forward outfit2 mask2 None model_eval = (Ok out, rt') ∧
    shape2 out = (1, 1) ∧
    (training (self model_eval) = false → wf2 out ∧ rt' = model_eval).
Proof.
  split.
  - by auto 10 using model_eval_wf, wf3_outfit2, wf2_mask2.
  - exact (cp_forward_returns_one_logit_per_outfit model_eval outfit2 mask2 1 2
             model_eval_wf ltac:(discriminate) eq_refl wf3_outfit2 eq_refl wf2_mask2).
Defined.

(** An outfit with six features for a model with four, and a mask for
    two outfits where there is one *)
Lemma forward_paths_refuse_mismatched_shapes_witness :
  dimD3 outfit_wide ≠ length (outfit_token (self model_train)) ∧
  (∃ msg, _cp_forward outfit_wide mask2 None model_train
          = (Raise (RuntimeError msg), model_train)) ∧
  dimB2 mask_two_rows ≠ dimB3 outfit2 ∧
  (∃ msg, _cir_forward outfit2 mask_two_rows text1 model_train
          = (Raise (RuntimeError msg), model_train)).
Proof.
  assert (Hwide : dimD3 outfit_wide ≠ length (outfit_token (self model_train))).
  { vm_compute. intros Hne. discriminate Hne. }
  assert (Hrows : dimB2 mask_two_rows ≠ dimB3 outfit2).
  { vm_compute. intros Hne. discriminate Hne. }
  split; [exact Hwide|]. split; [|split; [exact Hrows|]].
  - apply (proj1 (forward_paths_refuse_mismatched_shapes model_train outfit_wide mask2
                    text1)).
    by left.
  - apply (proj2 (forward_paths_refuse_mismatched_shapes model_train outfit2 mask_two_rows
                    text1)).
    right. by right.
Defined.

Lemma precompute_embeddings_keeps_first_position_witness :
  precompute_embeddings no_images no_images model_eval = (Raise IndexError, model_eval) ∧
  ∃ out,
    precompute_embeddings pairs_images pairs_texts model_eval = (Ok out, model_eval) ∧
    shape2 out = (2, 4).
Proof.
  split.
  - exact (proj1 (precompute_embeddings_keeps_first_position model_eval no_images
                    no_images) eq_refl).
  - destruct (proj2 (precompute_embeddings_keeps_first_position model_eval pairs_images
                       pairs_texts) ltac:(discriminate)) as (out & Hrun & Hshape & _).
    by exists out.
Defined.

Lemma hook_after_setup_by_run_mode_witness :
  hook_after_setup (trainer_of "custom" 1 [])
  = (Raise (ValueError "未知的运行模式"), set_device_type "cpu" (trainer_of "custom" 1 [])) ∧
  hook_after_setup (trainer_of "test" 1 [])
  = (Ok tt, set_device_type "cpu" (trainer_of "test" 1 [])) ∧
  hook_after_setup (trainer_of "train-valid" 8 [])
  = (Ok tt, set_device_type "cpu" (trainer_of "train-valid" 8 [])).
Proof.
  pose proof (hook_after_setup_by_run_mode (trainer_of "custom" 1 [])) as (_ & _ & Hcustom).
  pose proof (hook_after_setup_by_run_mode (trainer_of "test" 1 [])) as (Htest & _ & _).
  pose proof (hook_after_setup_by_run_mode (trainer_of "train-valid" 8 []))
    as (_ & Htrain & _).
  split; [|split].
  - apply Hcustom; discriminate.
  - rewrite Htest; [reflexivity|reflexivity|]. simpl. lia.
  - by rewrite Htrain.
Defined.

(** The two shards of the cache directory, and not the notes *)
Lemma load_embeddings_opens_the_matching_files_in_name_order_witness :
  literal_prefix "m_embedding_subset_" ∧
  ∃ result d' files,
    load_embeddings "m_embedding_subset_" cache_dir = (Ok result, d') ∧
    files ≡ₚ ["m_embedding_subset_1.pkl"; "m_embedding_subset_0.pkl"] ∧
    ascending files ∧
    d' = mkDirectory (entries cache_dir) files.
Proof.
  assert (Hliteral : literal_prefix "m_embedding_subset_") by (by repeat constructor).
  split; [exact Hliteral|].
  destruct (load_embeddings "m_embedding_subset_" cache_dir) as [[result|e] d'] eqn:Hload;
    [|by vm_compute in Hload].
  destruct (load_embeddings_opens_the_matching_files_in_name_order cache_dir d'
              "m_embedding_subset_" result Hliteral Hload)
    as (files & _ & Hperm & _ & Hasc & Hopened).
  by exists result, d', files.
Defined.

Lemma load_embeddings_maps_each_id_to_its_row_witness :
  ∃ result d',
    load_embeddings "m_embedding_subset_" cache_dir = (Ok result, d') ∧
    result !! 11%Z = Some [1; 2]%Z ∧ result !! 13%Z = Some [5; 6]%Z ∧
    ¬ is_Some (result !! 14%Z).
Proof.
  destruct (load_embeddings "m_embedding_subset_" cache_dir) as [[result|e] d'] eqn:Hload;
    [|by vm_compute in Hload].
  exists result, d'. split; [done|].
  destruct (load_embeddings_maps_each_id_to_its_row cache_dir d' "m_embedding_subset_"
              [shard0; shard1] result) as [Hrow Hkeys].
  - by repeat constructor.
  - exact Hload.
  - by repeat constructor.
  - apply (bool_decide_unpack _). by vm_compute.
  - split; [|split].
    + apply (Hrow shard0 0); [by left|done..].
    + apply (Hrow shard1 0); [by right; left|done..].
    + rewrite Hkeys. apply (bool_decide_unpack _). by vm_compute.
Defined.

Lemma y_hats_index_of_refuses_bad_candidates_witness :
  (∃ msg, @y_hats_index_of ZTorch (unsqueeze1 y_hats2) candidates_wide
          = Raise (RuntimeError msg)) ∧
  (∃ msg, @y_hats_index_of ZTorch (unsqueeze1 y_hats2) candidates_three
          = Raise (RuntimeError msg)) ∧
  @y_hats_index_of ZTorch (unsqueeze1 y_hats2) candidates_none = Raise IndexError.
Proof.
  destruct (@y_hats_index_of_refuses_bad_candidates ZTorch (unsqueeze1 y_hats2)
              candidates_wide) as (Hwide & _ & _).
  destruct (@y_hats_index_of_refuses_bad_candidates ZTorch (unsqueeze1 y_hats2)
              candidates_three) as (_ & Hthree & _).
  destruct (@y_hats_index_of_refuses_bad_candidates ZTorch (unsqueeze1 y_hats2)
              candidates_none) as (_ & _ & Hnone).
  split; [|split].
  - apply Hwide. vm_compute. intros Hne. discriminate Hne.
  - apply Hthree; [reflexivity|vm_compute; intros Hne; discriminate Hne..].
  - by apply Hnone.
Defined.

(** Without a batch the accuracy divides by zero; with a batch and no
    device type the first step is refused; after the device type has
    been stored the question is answered and the result logged. *)
Lemma test_runs_in_evaluation_mode_witness :
  test (trainer_of "test" 1 [])
  = (Raise ZeroDivisionError,
     set_model (train false model_train).2 (trainer_of "test" 1 [])) ∧
  (∃ msg, test (trainer_of "test" 1 [question])
          = (Raise (ValueError msg),
             set_model (train false model_train).2 (trainer_of "test" 1 [question]))) ∧
  test (set_device_type "cpu" (trainer_of "test" 1 [question]))
  = log "info" (1, 1)
      (set_model model_eval (set_device_type "cpu" (trainer_of "test" 1 [question]))).
Proof.
  destruct (test_runs_in_evaluation_mode (trainer_of "test" 1 [])) as (_ & Hempty & _).
  destruct (test_runs_in_evaluation_mode (trainer_of "test" 1 [question]))
    as (_ & _ & Hnone & _).
  destruct (test_runs_in_evaluation_mode
              (set_device_type "cpu" (trainer_of "test" 1 [question])))
    as (_ & _ & _ & Hcpu).
  split; [exact (Hempty eq_refl)|]. split; [by apply Hnone|].
  apply (Hcpu question 1 1 model_eval eq_refl (or_intror eq_refl)); [|discriminate].
  vm_compute. reflexivity.
Defined.

Lemma test_step_hits_at_most_rows_witness :
  test_step question model_eval = (Ok (1, 1), model_eval) ∧
  length (answer_index question) = 1 ∧ 1 ≤ 1.
Proof.
  assert (Hstep : test_step question model_eval = (Ok (1, 1), model_eval))
    by (vm_compute; reflexivity).
  split; [exact Hstep|]. split; [reflexivity|].
  exact (test_step_hits_at_most_rows question model_eval model_eval 1 1 Hstep
           (or_introl eq_refl)).
Defined.
End further_examples.

Section odd_dimension_example.
Import ZModel ZExtra.
#[local] Existing Instance ZTorch.
#[local] Existing Instance ZItemEncoder5.

Lemma model_odd_wf : OutfitX_wf (self model_odd).
Proof. by apply OutfitX_init_wf. Qed.

(** [d_embed = 5]: the placeholder has two entries, a text embedding of
    width two leaves the fifth column open. *)
Lemma cir_forward_odd_d_embed_refuses_half_width_text_witness :
  (OutfitX_wf (self model_odd) ∧ 5 mod 2 = 1 ∧ dimD3 outfit_odd = 5 ∧
   dimD2 text1 = Nat.div 5 2) ∧
  ∃ msg, _cir_forward outfit_odd mask_odd text1 model_odd
         = (Raise (RuntimeError msg), model_odd).
Proof.
  split; [by auto using model_odd_wf|].
  exact (cir_forward_odd_d_embed_refuses_half_width_text model_odd outfit_odd mask_odd
           text1 model_odd_wf eq_refl eq_refl eq_refl).
Defined.
End odd_dimension_example.
